(** * Alpha Creator Ads: the canvas preview renderer

    A shallow embedding of the drawing code of
    [frontend/src/components/AIAdGenerator.tsx]: the greedy word wrap
    ([wrapText], [drawText]), the layout resolution ([getCanvasDimensions],
    [calculateLayout]), the content variations ([getContentVariation]) and
    the render procedure of the real-time customization screen
    ([updatePreview], [drawButton], [roundRect]).

    JavaScript numbers are modelled as rationals ([Q]): every coordinate the
    renderer computes is a sum, a difference or a quotient by 2 or 3 of its
    inputs.  Strings are [string]s (byte sequences); the separator of
    [split] is the single space.  The 2D context is an explicit state
    threaded through a small state monad. *)

From Stdlib Require Import List String Ascii Bool ZArith QArith Lia Lqa.
Import ListNotations.

Local Open Scope string_scope.
Local Open Scope Q_scope.

(** ** JavaScript helpers *)

Module JS.

(** [a < b] on numbers. *)
Definition ltb (a b : Q) : bool := negb (Qle_bool b a).

(** [a > 0] on numbers. *)
Definition gt0 (a : Q) : bool := ltb 0 a.

(** [s.split(' ')]: the pieces between the spaces; never empty. *)
Fixpoint split (s : string) : list string :=
  match s with
  | EmptyString => [EmptyString]
  | String c s' =>
      if Ascii.eqb c " "%char then EmptyString :: split s'
      else match split s' with
           | w :: ws => String c w :: ws
           | [] => [String c EmptyString]
           end
  end.

(** [lines.join(' ')]. *)
Fixpoint join (l : list string) : string :=
  match l with
  | [] => EmptyString
  | [w] => w
  | w :: ws => w ++ " " ++ join ws
  end.

(** [arr[i]] for an integer index: [undefined] ([None]) out of range. *)
Definition index {A : Type} (arr : list A) (i : Z) : option A :=
  if (i <? 0)%Z then None else nth_error arr (Z.to_nat i).

(** [v || d] where [v] is a string or [undefined]: the empty string and
    [undefined] are falsy. *)
Definition or_else (v : option string) (d : string) : string :=
  match v with
  | Some EmptyString => d
  | Some s => s
  | None => d
  end.

(** [t] occurs inside [s]. *)
Definition embeds (s t : string) : Prop :=
  exists pre post : string, s = pre ++ t ++ post.

End JS.

(** ** The 2D drawing context *)

Module Canvas.

Record Font : Type := mkFont
  { bold : bool; px : Q; family : string }.

Inductive TextAlign : Type := AlignLeft | AlignRight | AlignCenter | AlignStart | AlignEnd.

Record Gradient : Type := mkGradient
  { gx0 : Q; gy0 : Q; gx1 : Q; gy1 : Q; stops : list (Q * string) }.

Inductive FillStyle : Type :=
| Color (c : string)
| Linear (g : Gradient).

Inductive PathCmd : Type :=
| MoveTo (x y : Q)
| LineTo (x y : Q)
| QuadraticCurveTo (cpx cpy x y : Q)
| ClosePath.

Definition Path := list PathCmd.

(** The part of the context that [save] pushes and [restore] pops.  The
    clip region is the intersection of the listed paths; the empty list is
    the whole surface. *)
Record DrawState : Type := mkDrawState
  { fillStyle : FillStyle;
    font : Font;
    textAlign : TextAlign;
    shadowColor : string;
    shadowBlur : Q;
    shadowOffsetX : Q;
    shadowOffsetY : Q;
    clipRegion : list Path }.

(** A drawing call together with the state it was issued in. *)
Inductive DrawOp : Type :=
| FillRect (st : DrawState) (x y w h : Q)
| FillText (st : DrawState) (text : string) (x y : Q).

(** The canvas element: its size, the context and the drawing calls issued
    since the bitmap was last reset (oldest first). *)
Record State : Type := mkState
  { width : Q;
    height : Q;
    cur : DrawState;
    path : Path;
    saved : list DrawState;
    ops : list DrawOp }.

Definition defaultDrawState : DrawState :=
  {| fillStyle := Color "#000000";
     font := mkFont false 10 "sans-serif";
     textAlign := AlignStart;
     shadowColor := "rgba(0, 0, 0, 0)";
     shadowBlur := 0;
     shadowOffsetX := 0;
     shadowOffsetY := 0;
     clipRegion := [] |}.

End Canvas.

(** ** A state monad over the canvas *)

Module CanvasM.
Import Canvas.

Definition M (A : Type) : Type := State -> A * State.

Definition ret {A : Type} (a : A) : M A := fun s => (a, s).

Definition bind {A B : Type} (c : M A) (k : A -> M B) : M B :=
  fun s => let (a, s') := c s in k a s'.

Definition exec {A : Type} (c : M A) (s : State) : State := snd (c s).

Definition modify (f : State -> State) : M unit := fun s => (tt, f s).

Definition modifyCur (f : DrawState -> DrawState) : M unit :=
  modify (fun s => mkState (width s) (height s) (f (cur s)) (path s) (saved s) (ops s)).

Definition when (b : bool) (c : M unit) : M unit := if b then c else ret tt.

Declare Scope canvas_scope.
Delimit Scope canvas_scope with canvas.
Notation "x <- c ;; k" := (bind c (fun x => k))
  (at level 61, c at next level, right associativity) : canvas_scope.
Notation "c ;; k" := (bind c (fun _ => k))
  (at level 61, right associativity) : canvas_scope.

(** [canvas.width = w] and [canvas.height = h]: assigning either dimension
    resets the bitmap and puts the context back in its default state. *)
Definition setWidth (w : Q) : M unit :=
  modify (fun s => mkState w (height s) defaultDrawState [] [] []).

Definition setHeight (h : Q) : M unit :=
  modify (fun s => mkState (width s) h defaultDrawState [] [] []).

Definition getWidth : M Q := fun s => (width s, s).
Definition getHeight : M Q := fun s => (height s, s).

Definition setFillStyle (v : FillStyle) : M unit :=
  modifyCur (fun d => mkDrawState v (font d) (textAlign d) (shadowColor d)
                        (shadowBlur d) (shadowOffsetX d) (shadowOffsetY d) (clipRegion d)).

Definition setFont (v : Font) : M unit :=
  modifyCur (fun d => mkDrawState (fillStyle d) v (textAlign d) (shadowColor d)
                        (shadowBlur d) (shadowOffsetX d) (shadowOffsetY d) (clipRegion d)).

Definition setTextAlign (v : TextAlign) : M unit :=
  modifyCur (fun d => mkDrawState (fillStyle d) (font d) v (shadowColor d)
                        (shadowBlur d) (shadowOffsetX d) (shadowOffsetY d) (clipRegion d)).

Definition setShadowColor (v : string) : M unit :=
  modifyCur (fun d => mkDrawState (fillStyle d) (font d) (textAlign d) v
                        (shadowBlur d) (shadowOffsetX d) (shadowOffsetY d) (clipRegion d)).

Definition setShadowBlur (v : Q) : M unit :=
  modifyCur (fun d => mkDrawState (fillStyle d) (font d) (textAlign d) (shadowColor d)
                        v (shadowOffsetX d) (shadowOffsetY d) (clipRegion d)).

Definition setShadowOffsetX (v : Q) : M unit :=
  modifyCur (fun d => mkDrawState (fillStyle d) (font d) (textAlign d) (shadowColor d)
                        (shadowBlur d) v (shadowOffsetY d) (clipRegion d)).

Definition setShadowOffsetY (v : Q) : M unit :=
  modifyCur (fun d => mkDrawState (fillStyle d) (font d) (textAlign d) (shadowColor d)
                        (shadowBlur d) (shadowOffsetX d) v (clipRegion d)).

Definition emit (o : DrawState -> DrawOp) : M unit :=
  modify (fun s => mkState (width s) (height s) (cur s) (path s) (saved s)
                     (ops s ++ [o (cur s)])%list).

Definition fillRect (x y w h : Q) : M unit := emit (fun d => FillRect d x y w h).

Definition fillText (text : string) (x y : Q) : M unit :=
  emit (fun d => FillText d text x y).

Definition save : M unit :=
  modify (fun s => mkState (width s) (height s) (cur s) (path s) (cur s :: saved s) (ops s)).

(** [restore] with nothing saved does nothing. *)
Definition restore : M unit :=
  modify (fun s => match saved s with
                   | [] => s
                   | d :: rest => mkState (width s) (height s) d (path s) rest (ops s)
                   end).

Definition setPath (f : Path -> Path) : M unit :=
  modify (fun s => mkState (width s) (height s) (cur s) (f (path s)) (saved s) (ops s)).

Definition beginPath : M unit := setPath (fun _ => []).
Definition moveTo (x y : Q) : M unit := setPath (fun p => (p ++ [MoveTo x y])%list).
Definition lineTo (x y : Q) : M unit := setPath (fun p => (p ++ [LineTo x y])%list).
Definition quadraticCurveTo (cpx cpy x y : Q) : M unit :=
  setPath (fun p => (p ++ [QuadraticCurveTo cpx cpy x y])%list).
Definition closePath : M unit := setPath (fun p => (p ++ [ClosePath])%list).

(** [clip]: the clip region becomes its intersection with the current path. *)
Definition clip : M unit :=
  modify (fun s =>
    let d := cur s in
    mkState (width s) (height s)
      (mkDrawState (fillStyle d) (font d) (textAlign d) (shadowColor d)
         (shadowBlur d) (shadowOffsetX d) (shadowOffsetY d) (clipRegion d ++ [path s])%list)
      (path s) (saved s) (ops s)).

Definition createLinearGradient (x0 y0 x1 y1 : Q) : Gradient :=
  mkGradient x0 y0 x1 y1 [].

Definition addColorStop (g : Gradient) (offset : Q) (color : string) : Gradient :=
  mkGradient (gx0 g) (gy0 g) (gx1 g) (gy1 g) (stops g ++ [(offset, color)])%list.

End CanvasM.

(** ** Data of the components *)

Module AdContent.
Record t : Type := mk
  { headline : string; description : string; callToAction : string }.
End AdContent.

Record Ad : Type := mkAd { id : string; content : AdContent.t }.

Module Dimensions.
Record t : Type := mk { width : Q; height : Q }.
End Dimensions.

Module TextRegion.
Record t : Type := mk { x : Q; y : Q; maxWidth : Q }.
End TextRegion.

Module ButtonRegion.
Record t : Type := mk { x : Q; y : Q; width : Q; height : Q }.
End ButtonRegion.

Module Layout.
Record t : Type := mk
  { headline : TextRegion.t; description : TextRegion.t; cta : ButtonRegion.t }.
End Layout.

(** The fields of the [customizations] state that the preview reads. *)
Record Customizations : Type := mkCustomizations
  { backgroundColor : string;
    textColor : string;
    accentColor : string;
    fontSize : Q;
    fontFamily : string;
    borderRadius : Q;
    shadow : Q;
    layout : string;
    textAlignment : Canvas.TextAlign;
    padding : Q;
    animationType : string;
    headlineVariation : Z;
    descriptionVariation : Z;
    ctaVariation : Z }.

Inductive VariationType : Type := TypeHeadline | TypeDescription | TypeCta.

(** ** The drawing code *)

Section Components.
Import Canvas CanvasM.
Local Open Scope canvas_scope.

(** The text-measurement backend: the advance width of a string in a font. *)
Variable measure : Font -> string -> Q.

(** [ctx.measureText(s).width] *)
Definition measureText (ctx : State) (s : string) : Q := measure (font (cur ctx)) s.

(** The [for] loop shared, word for word, by [wrapText] and [drawText],
    followed by the final [lines.push(currentLine)]. *)
Fixpoint wrapLoop (ctx : State) (maxWidth : Q) (words : list string)
    (lines : list string) (currentLine : string) : list string :=
  match words with
  | [] => (lines ++ [currentLine])%list
  | word :: rest =>
      let width := measureText ctx (currentLine ++ " " ++ word) in
      if JS.ltb width maxWidth
      then wrapLoop ctx maxWidth rest lines (currentLine ++ " " ++ word)
      else wrapLoop ctx maxWidth rest (lines ++ [currentLine])%list word
  end.

(** [wrapText] of the generator screen; [words[0]] always exists. *)
Definition wrapText (ctx : State) (text : string) (maxWidth : Q) : list string :=
  let words := JS.split text in
  wrapLoop ctx maxWidth (tl words) [] (hd EmptyString words).

(** [lines.forEach((line, index) => f(line, index))] *)
Fixpoint forEach (f : string -> nat -> M unit) (lines : list string) (index : nat) : M unit :=
  match lines with
  | [] => ret tt
  | line :: rest => f line index ;; forEach f rest (S index)
  end.

Definition ofIndex (index : nat) : Q := inject_Z (Z.of_nat index).

Section RealTimeCustomization.

Variable customizations : Customizations.
Variable selectedAd : option Ad.
Variable previewMode : string.

Definition getCanvasDimensions (mode : string) : Dimensions.t :=
  if String.eqb mode "mobile" then Dimensions.mk 320 400
  else if String.eqb mode "tablet" then Dimensions.mk 768 500
  else Dimensions.mk 600 400.

Definition calculateLayout (width height : Q) : Layout.t :=
  let padding := padding customizations in
  if String.eqb (layout customizations) "centered" then
    Layout.mk
      (TextRegion.mk (width / 2) (padding + 40) (width - (padding * 2)))
      (TextRegion.mk (width / 2) (padding + 100) (width - (padding * 2)))
      (ButtonRegion.mk (width / 2 - 60) (height - padding - 50) 120 40)
  else if String.eqb (layout customizations) "split" then
    Layout.mk
      (TextRegion.mk padding (padding + 40) (width / 2 - padding))
      (TextRegion.mk padding (padding + 100) (width / 2 - padding))
      (ButtonRegion.mk (width / 2 + padding) (height / 2 - 20) 120 40)
  else
    Layout.mk
      (TextRegion.mk padding (padding + 40) (width - (padding * 2)))
      (TextRegion.mk padding (padding + 100) (width - (padding * 2)))
      (ButtonRegion.mk padding (height - padding - 50) 120 40).

(** The bytes of the fire emoji that ends the fourth headline variant. *)
Definition fire : string :=
  String (ascii_of_nat 240) (String (ascii_of_nat 159)
    (String (ascii_of_nat 148) (String (ascii_of_nat 165) EmptyString))).

Definition variations (type : VariationType) (originalText : string) : list string :=
  match type with
  | TypeHeadline =>
      [ originalText;
        originalText ++ " - Limited Time!";
        "New: " ++ originalText;
        originalText ++ " " ++ fire ]
  | TypeDescription =>
      [ originalText;
        originalText ++ " Act now!";
        "Exclusive: " ++ originalText;
        originalText ++ " Don't miss out!" ]
  | TypeCta =>
      [ originalText; "Get Started"; "Learn More"; "Try Now"; "Shop Today" ]
  end.

(** [customizations[`${type}Variation`]] *)
Definition variationIndexOf (type : VariationType) : Z :=
  match type with
  | TypeHeadline => headlineVariation customizations
  | TypeDescription => descriptionVariation customizations
  | TypeCta => ctaVariation customizations
  end.

Definition getContentVariation (type : VariationType) (originalText : string) : string :=
  let variationIndex := variationIndexOf type in
  JS.or_else (JS.index (variations type originalText) variationIndex) originalText.

Definition drawText (text : string) (x y maxWidth : Q) : M unit :=
  fun ctx =>
    let words := JS.split text in
    let lines := wrapLoop ctx maxWidth (tl words) [] (hd EmptyString words) in
    forEach (fun line index =>
               fillText line x (y + (ofIndex index * (fontSize customizations + 5))))
            lines 0%nat ctx.

Definition drawButton (text : string) (x y width height : Q) : M unit :=
  setFillStyle (Color (accentColor customizations)) ;;
  fillRect x y width height ;;
  setFillStyle (Color "#ffffff") ;;
  setFont (mkFont true (fontSize customizations) (fontFamily customizations)) ;;
  setTextAlign AlignCenter ;;
  fillText text (x + width / 2) (y + height / 2 + fontSize customizations / 3).

Definition roundRect (x y width height radius : Q) : M unit :=
  beginPath ;;
  moveTo (x + radius) y ;;
  lineTo (x + width - radius) y ;;
  quadraticCurveTo (x + width) y (x + width) (y + radius) ;;
  lineTo (x + width) (y + height - radius) ;;
  quadraticCurveTo (x + width) (y + height) (x + width - radius) (y + height) ;;
  lineTo (x + radius) (y + height) ;;
  quadraticCurveTo x (y + height) x (y + height - radius) ;;
  lineTo x (y + radius) ;;
  quadraticCurveTo x y (x + radius) y ;;
  closePath.

(** The animation hook is an empty function. *)
Definition applyAnimation : M unit := ret tt.

Definition updatePreview : M unit :=
  match selectedAd with
  | None => ret tt
  | Some ad =>
      let dimensions := getCanvasDimensions previewMode in
      setWidth (Dimensions.width dimensions) ;;
      setHeight (Dimensions.height dimensions) ;;
      (* Clear canvas *)
      setFillStyle (Color (backgroundColor customizations)) ;;
      w <- getWidth ;; h <- getHeight ;;
      fillRect 0 0 w h ;;
      (* Apply border radius *)
      when (JS.gt0 (borderRadius customizations))
        (save ;;
         w <- getWidth ;; h <- getHeight ;;
         roundRect 0 0 w h (borderRadius customizations) ;;
         clip) ;;
      (* Draw background gradient if accent color is different *)
      when (negb (String.eqb (accentColor customizations) (backgroundColor customizations)))
        (w <- getWidth ;; h <- getHeight ;;
         let gradient := createLinearGradient 0 0 w h in
         let gradient := addColorStop gradient 0 (backgroundColor customizations) in
         let gradient := addColorStop gradient 1 (accentColor customizations ++ "20") in
         setFillStyle (Linear gradient) ;;
         fillRect 0 0 w h) ;;
      (* Calculate layout positions *)
      w <- getWidth ;; h <- getHeight ;;
      let layout := calculateLayout w h in
      (* Draw headline *)
      setFillStyle (Color (textColor customizations)) ;;
      setFont (mkFont true (fontSize customizations + 4) (fontFamily customizations)) ;;
      setTextAlign (textAlignment customizations) ;;
      let headline := getContentVariation TypeHeadline (AdContent.headline (content ad)) in
      drawText headline (TextRegion.x (Layout.headline layout))
        (TextRegion.y (Layout.headline layout)) (TextRegion.maxWidth (Layout.headline layout)) ;;
      (* Draw description *)
      setFont (mkFont false (fontSize customizations) (fontFamily customizations)) ;;
      let description := getContentVariation TypeDescription (AdContent.description (content ad)) in
      drawText description (TextRegion.x (Layout.description layout))
        (TextRegion.y (Layout.description layout))
        (TextRegion.maxWidth (Layout.description layout)) ;;
      (* Draw CTA button *)
      let cta := getContentVariation TypeCta (AdContent.callToAction (content ad)) in
      drawButton cta (ButtonRegion.x (Layout.cta layout)) (ButtonRegion.y (Layout.cta layout))
        (ButtonRegion.width (Layout.cta layout)) (ButtonRegion.height (Layout.cta layout)) ;;
      (* Apply shadow effect *)
      when (JS.gt0 (shadow customizations))
        (setShadowColor "rgba(0, 0, 0, 0.1)" ;;
         setShadowBlur (shadow customizations * 2) ;;
         setShadowOffsetX (shadow customizations) ;;
         setShadowOffsetY (shadow customizations)) ;;
      (* Apply animation if enabled *)
      when (negb (String.eqb (animationType customizations) "none")) applyAnimation ;;
      when (JS.gt0 (borderRadius customizations)) restore
  end.

End RealTimeCustomization.
End Components.

(** ** Pixels *)

Section Raster.
Import Canvas.

(** Any rasteriser: a blank bitmap of a given size and the effect of one
    drawing call on a bitmap. *)
Variable Bitmap : Type.
Variable blank : Q -> Q -> Bitmap.
Variable paint : Bitmap -> DrawOp -> Bitmap.

(** The pixel content of the canvas: the calls issued since the last reset,
    painted in order on a blank bitmap of the canvas size. *)
Definition pixels (c : State) : Bitmap :=
  fold_left paint (ops c) (blank (width c) (height c)).

End Raster.

(** ** Concrete inputs *)

Module Sample.
Import Canvas.

(** A fixed-pitch measurement backend: every byte advances 0.6 em. *)
Definition fixedPitch (f : Font) (s : string) : Q :=
  inject_Z (Z.of_nat (String.length s)) * (px f * (3 # 5)).

(** The initial [customizations] state of the customization screen. *)
Definition initial : Customizations :=
  {| backgroundColor := "#ffffff";
     textColor := "#000000";
     accentColor := "#007bff";
     fontSize := 16;
     fontFamily := "Inter";
     borderRadius := 8;
     shadow := 2;
     layout := "standard";
     textAlignment := AlignLeft;
     padding := 20;
     animationType := "none";
     headlineVariation := 0;
     descriptionVariation := 0;
     ctaVariation := 0 |}.

Definition withLayout (c : Customizations) (l : string) (p : Q) : Customizations :=
  mkCustomizations (backgroundColor c) (textColor c) (accentColor c) (fontSize c)
    (fontFamily c) (borderRadius c) (shadow c) l (textAlignment c) p
    (animationType c) (headlineVariation c) (descriptionVariation c) (ctaVariation c).

Definition withVariations (c : Customizations) (h d t : Z) : Customizations :=
  mkCustomizations (backgroundColor c) (textColor c) (accentColor c) (fontSize c)
    (fontFamily c) (borderRadius c) (shadow c) (layout c) (textAlignment c) (padding c)
    (animationType c) h d t.

Definition withAlignment (c : Customizations) (a : TextAlign) : Customizations :=
  mkCustomizations (backgroundColor c) (textColor c) (accentColor c) (fontSize c)
    (fontFamily c) (borderRadius c) (shadow c) (layout c) a (padding c)
    (animationType c) (headlineVariation c) (descriptionVariation c) (ctaVariation c).

Definition shortCopy : Ad :=
  mkAd "ad-1" (AdContent.mk "Save Today" "Get 20% off" "Shop Now").

(** A canvas as the browser creates it: 300 by 150, nothing drawn. *)
Definition fresh : State := mkState 300 150 defaultDrawState [] [] [].

End Sample.

(** The surface of a preview mode. *)
Definition surfaceWidth (mode : string) : Q := Dimensions.width (getCanvasDimensions mode).
Definition surfaceHeight (mode : string) : Q := Dimensions.height (getCanvasDimensions mode).

(** The four call-to-action texts that do not come from the ad. *)
Definition fixedCtas : list string := ["Get Started"; "Learn More"; "Try Now"; "Shop Today"].

(** ** Reading a list of drawing calls *)

Module Trace.
Import Canvas.

Definition opState (o : DrawOp) : DrawState :=
  match o with
  | FillRect st _ _ _ _ => st
  | FillText st _ _ _ => st
  end.

Definition clipOf (o : DrawOp) : list Path := clipRegion (opState o).

(** The calls that [lines.forEach] of [drawText] issues in state [d]. *)
Fixpoint textOps (d : DrawState) (x : Q) (yOf : nat -> Q) (lines : list string)
    (index : nat) : list DrawOp :=
  match lines with
  | [] => []
  | line :: rest => FillText d line x (yOf index) :: textOps d x yOf rest (S index)
  end.

(** The path that [roundRect] leaves in the context. *)
Definition roundedPath (x y width height radius : Q) : Path :=
  [ MoveTo (x + radius) y;
    LineTo (x + width - radius) y;
    QuadraticCurveTo (x + width) y (x + width) (y + radius);
    LineTo (x + width) (y + height - radius);
    QuadraticCurveTo (x + width) (y + height) (x + width - radius) (y + height);
    LineTo (x + radius) (y + height);
    QuadraticCurveTo x (y + height) x (y + height - radius);
    LineTo x (y + radius);
    QuadraticCurveTo x y (x + radius) y;
    ClosePath ].

(** The strings of the text calls, in drawing order. *)
Definition textsOf (tr : list DrawOp) : list string :=
  flat_map (fun o => match o with
                     | FillText _ t _ _ => [t]
                     | FillRect _ _ _ _ _ => []
                     end) tr.

(** Every call of the list is clipped to exactly the path [p]. *)
Definition allClipped (p : Path) (tr : list DrawOp) : Prop :=
  Forall (fun o => clipOf o = [p]) tr.

Definition isGradientFill (o : DrawOp) : bool :=
  match o with
  | FillRect st _ _ _ _ => match fillStyle st with Linear _ => true | Color _ => false end
  | FillText _ _ _ _ => false
  end.

(** A text call with its baseline start at the point [(x, y)]. *)
Definition textAt (x y : Q) (o : DrawOp) : bool :=
  match o with
  | FillText _ _ x' y' => Qeq_bool x' x && Qeq_bool y' y
  | FillRect _ _ _ _ _ => false
  end.

(** A text call that draws [text] at the point [(x, y)]. *)
Definition drawsText (text : string) (x y : Q) (o : DrawOp) : bool :=
  match o with
  | FillText _ t _ _ => String.eqb t text && textAt x y o
  | FillRect _ _ _ _ _ => false
  end.

(** A rectangle call in colour [c] over [(x, y, w, h)]. *)
Definition rectAt (c : string) (x y w h : Q) (o : DrawOp) : bool :=
  match o with
  | FillRect st x' y' w' h' =>
      match fillStyle st with
      | Color c' => String.eqb c' c
      | Linear _ => false
      end && Qeq_bool x' x && Qeq_bool y' y && Qeq_bool w' w && Qeq_bool h' h
  | FillText _ _ _ _ => false
  end.

(** Every text call starts at abscissa [xc]. *)
Definition textCallsAt (xc : Q) (tr : list DrawOp) : Prop :=
  Forall (fun o => match o with
                   | FillText _ _ x _ => x == xc
                   | FillRect _ _ _ _ _ => True
                   end) tr.

(** Every text call is issued with alignment [a]. *)
Definition textCallsAligned (a : TextAlign) (tr : list DrawOp) : Prop :=
  Forall (fun o => match o with
                   | FillText st _ _ _ => textAlign st = a
                   | FillRect _ _ _ _ _ => True
                   end) tr.

(** The drawing states in which [updatePreview] issues its calls. *)
Section Expected.
Variable c : Customizations.
Variables W H : Q.

Definition clipFor : list Path :=
  if JS.gt0 (borderRadius c) then [roundedPath 0 0 W H (borderRadius c)] else [].

Definition inState (f : FillStyle) (fn : Font) (a : TextAlign) (cl : list Path) : DrawState :=
  mkDrawState f fn a (shadowColor defaultDrawState) (shadowBlur defaultDrawState)
    (shadowOffsetX defaultDrawState) (shadowOffsetY defaultDrawState) cl.

Definition stClear : DrawState :=
  inState (Color (backgroundColor c)) (font defaultDrawState) AlignStart [].

Definition overlay : Gradient :=
  mkGradient 0 0 W H [(0, backgroundColor c); (1, accentColor c ++ "20")].

Definition stOverlay : DrawState :=
  inState (Linear overlay) (font defaultDrawState) AlignStart clipFor.

Definition stHeadline : DrawState :=
  inState (Color (textColor c)) (mkFont true (fontSize c + 4) (fontFamily c))
    (textAlignment c) clipFor.

Definition stDescription : DrawState :=
  inState (Color (textColor c)) (mkFont false (fontSize c) (fontFamily c))
    (textAlignment c) clipFor.

Definition stButton : DrawState :=
  inState (Color (accentColor c)) (mkFont false (fontSize c) (fontFamily c))
    (textAlignment c) clipFor.

Definition stLabel : DrawState :=
  inState (Color "#ffffff") (mkFont true (fontSize c) (fontFamily c)) AlignCenter clipFor.

Definition overlayOps : list DrawOp :=
  if negb (String.eqb (accentColor c) (backgroundColor c))
  then [FillRect stOverlay 0 0 W H] else [].

Definition lineY (y : Q) (index : nat) : Q := y + (ofIndex index * (fontSize c + 5)).

End Expected.

(** The standard-layout scenario with the coordinates (20, 44), (20, 100)
    and (20, 340, 120, 40). *)
Definition scenarioAt (hy dy cy : Q) (tr : list DrawOp) : bool :=
  existsb (drawsText "Save Today" 20 hy) tr &&
  existsb (drawsText "Get 20% off" 20 dy) tr &&
  existsb (rectAt "#007bff" 20 cy 120 40) tr.

(** A canvas whose context is in drawing state [d]. *)
Definition stateWith (d : DrawState) : State := mkState 0 0 d [] [] [].

End Trace.

(** ** Regions and the surface *)

Module Bounds.
Import Canvas.






End Bounds.

(** ** The alignment of the text calls *)

Module TextCalls.
Import Canvas.

Definition alignEqb (a b : TextAlign) : bool :=
  match a, b with
  | AlignLeft, AlignLeft | AlignRight, AlignRight | AlignCenter, AlignCenter
  | AlignStart, AlignStart | AlignEnd, AlignEnd => true
  | _, _ => false
  end.

(** A text call issued with alignment [a] at abscissa [x]. *)
Definition drawnAt (a : TextAlign) (x : Q) (o : DrawOp) : bool :=
  match o with
  | FillText st _ x' _ => alignEqb (textAlign st) a && Qeq_bool x' x
  | FillRect _ _ _ _ _ => false
  end.

(** A text call that draws [text] with alignment [a] at the point [(x, y)]. *)
Definition drawsAligned (a : TextAlign) (text : string) (x y : Q) (o : DrawOp) : bool :=
  Trace.drawsText text x y o && drawnAt a x o.

(** The decision of [Trace.textCallsAligned]. *)
Definition allAligned (a : TextAlign) (tr : list DrawOp) : bool :=
  forallb (fun o => match o with
                    | FillText st _ _ _ => alignEqb (textAlign st) a
                    | FillRect _ _ _ _ _ => true
                    end) tr.

End TextCalls.

(** ** Colours *)

Module Css.

Definition hexDigit (a : ascii) : option Z :=
  let n := Z.of_nat (nat_of_ascii a) in
  if ((48 <=? n) && (n <=? 57))%Z then Some (n - 48)%Z
  else if ((97 <=? n) && (n <=? 102))%Z then Some (n - 87)%Z
  else if ((65 <=? n) && (n <=? 70))%Z then Some (n - 55)%Z
  else None.

(** The opacity that a two-digit hexadecimal alpha suffix denotes. *)
Definition alphaOfSuffix (s : string) : option Q :=
  match s with
  | String a (String b EmptyString) =>
      match hexDigit a, hexDigit b with
      | Some hi, Some lo => Some (inject_Z (16 * hi + lo) / 255)
      | _, _ => None
      end
  | _ => None
  end.

End Css.

(** ** The preview of the generator screen *)

Module Generator.
Import Canvas CanvasM.
Local Open Scope canvas_scope.

(** [generationConfig.customizations] *)
Record Customizations : Type := mkCustomizations
  { backgroundColor : string;
    textColor : string;
    accentColor : string;
    fontSize : Q;
    fontFamily : string;
    layout : string }.

Section Preview.

Variable measure : Font -> string -> Q.
Variable customizations : Customizations.
Variable selectedVariation : option Ad.

Definition updateCanvasPreview : M unit :=
  match selectedVariation with
  | None => ret tt
  | Some variation =>
      (* Clear canvas *)
      setFillStyle (Color (backgroundColor customizations)) ;;
      w <- getWidth ;; h <- getHeight ;;
      fillRect 0 0 w h ;;
      (* Draw text elements *)
      setFillStyle (Color (textColor customizations)) ;;
      setFont (mkFont true (fontSize customizations + 4) (fontFamily customizations)) ;;
      fillText (AdContent.headline (content variation)) 20 40 ;;
      setFont (mkFont false (fontSize customizations) (fontFamily customizations)) ;;
      w <- getWidth ;;
      lines <- (fun ctx =>
                  (wrapText measure ctx (AdContent.description (content variation)) (w - 40),
                   ctx)) ;;
      forEach (fun line index => fillText line 20 (80 + (ofIndex index * 25))) lines 0%nat ;;
      (* Draw CTA button *)
      setFillStyle (Color (accentColor customizations)) ;;
      h <- getHeight ;;
      fillRect 20 (h - 60) 120 40 ;;
      setFillStyle (Color "#ffffff") ;;
      setFont (mkFont false (fontSize customizations) (fontFamily customizations)) ;;
      h <- getHeight ;;
      fillText (AdContent.callToAction (content variation)) 30 (h - 35)
  end.

End Preview.

(** The calls of one run, issued on a canvas in state [s]. *)
Definition previewCalls (measure : Font -> string -> Q) (c : Customizations)
    (variation : Ad) (s : State) : list DrawOp :=
  let d := cur s in
  let st (f : FillStyle) (fn : Font) : DrawState :=
    mkDrawState f fn (textAlign d) (shadowColor d) (shadowBlur d)
      (shadowOffsetX d) (shadowOffsetY d) (clipRegion d) in
  let body := mkFont false (fontSize c) (fontFamily c) in
  ([ FillRect (st (Color (backgroundColor c)) (font d)) 0 0 (width s) (height s);
     FillText (st (Color (textColor c)) (mkFont true (fontSize c + 4) (fontFamily c)))
       (AdContent.headline (content variation)) 20 40 ] ++
   Trace.textOps (st (Color (textColor c)) body) 20 (fun index => 80 + (ofIndex index * 25))
     (wrapText measure (Trace.stateWith (st (Color (textColor c)) body))
        (AdContent.description (content variation)) (width s - 40)) 0 ++
   [ FillRect (st (Color (accentColor c)) body) 20 (height s - 60) 120 40;
     FillText (st (Color "#ffffff") body)
       (AdContent.callToAction (content variation)) 30 (height s - 35) ])%list.

(** The canvas element of the generator screen: 400 by 400. *)
Definition canvas : State := mkState 400 400 defaultDrawState [] [] [].

Definition initial : Customizations :=
  {| backgroundColor := "#ffffff";
     textColor := "#000000";
     accentColor := "#007bff";
     fontSize := 16;
     fontFamily := "Inter";
     layout := "standard" |}.

End Generator.

(** ** Points of a path *)

Module Geometry.
Import Canvas.

(** The end points and control points of a path, in order. *)
Definition pointsOf (c : PathCmd) : list (Q * Q) :=
  match c with
  | MoveTo x y => [(x, y)]
  | LineTo x y => [(x, y)]
  | QuadraticCurveTo cpx cpy x y => [(cpx, cpy); (x, y)]
  | ClosePath => []
  end.

Definition pathPoints (p : Path) : list (Q * Q) := flat_map pointsOf p.

(** The point lies in the rectangle with corner [(x, y)] and the given size. *)
Definition inRect (x y w h : Q) (p : Q * Q) : Prop :=
  x <= fst p /\ fst p <= x + w /\ y <= snd p /\ snd p <= y + h.

End Geometry.

(** [customizations] with other shadow and animation settings. *)
Definition withEffects (c : Customizations) (sh : Q) (anim : string) : Customizations :=
  mkCustomizations (backgroundColor c) (textColor c) (accentColor c) (fontSize c)
    (fontFamily c) (borderRadius c) sh (layout c) (textAlignment c) (padding c)
    anim (headlineVariation c) (descriptionVariation c) (ctaVariation c).

(** ** Numbers of [Math] *)

Module JSMath.

(** [Math.min(a, b)] and [Math.max(a, b)] *)
Definition min (a b : Q) : Q := if JS.ltb b a then b else a.
Definition max (a b : Q) : Q := if JS.ltb a b then b else a.

End JSMath.

(** ** Automatic optimisation of the customization screen *)

Module Optimizer.

(** The component state that [performAutoOptimization] writes. *)
Record Screen : Type := mkScreen
  { customizations : Customizations;
    optimizationScore : Q;
    isOptimizing : bool }.

Definition adjustColorForOptimization (color : string) : string := color.

(** [optimizePrompt] of the AI store; it always resolves. *)
Definition optimizePrompt (prompt targetMetric : string) : string :=
  "Optimized: " ++ prompt ++ " (enhanced for " ++ targetMetric ++ ")".

(** One run, to its end.  [selectedAd], [isOptimizing] and
    [optimizationScore] are the values the function closed over when it
    was created (the render of the click, or the render in which the
    interval was set up); the customizations are updated from their
    current value, which is in [now].  [r1] and [r2] are the two draws of
    [Math.random()], in the order the code makes them. *)
Definition performAutoOptimization (selectedAd : option Ad) (isOptimizing : bool)
    (optimizationScore : Q) (r1 r2 : Q) (now : Screen) : Screen :=
  match selectedAd with
  | None => now
  | Some ad =>
      if isOptimizing then now
      else
        let optimizedPrompt := optimizePrompt (AdContent.headline (content ad)) "ctr" in
        let newScore := JSMath.min 100 (optimizationScore + r1 * 5) in
        let prev := customizations now in
        mkScreen
          (mkCustomizations
             (backgroundColor prev)
             (adjustColorForOptimization (textColor prev))
             (adjustColorForOptimization (accentColor prev))
             (JSMath.max 14 (JSMath.min 20 (fontSize prev + (r2 - (1 # 2)) * 2)))
             (fontFamily prev) (borderRadius prev) (shadow prev) (layout prev)
             (textAlignment prev) (padding prev) (animationType prev)
             (headlineVariation prev) (descriptionVariation prev) (ctaVariation prev))
          newScore
          false
  end.

End Optimizer.

(** ** Score colours of the ethical controls *)

Module Ethics.

Definition geb (a b : Q) : bool := Qle_bool b a.

Definition getComplianceColor (score : Q) : string :=
  if geb score 90 then "text-green-600"
  else if geb score 70 then "text-yellow-600"
  else "text-red-600".

Definition getBiasScoreColor (score : Q) : string :=
  if geb score 80 then "bg-green-500"
  else if geb score 60 then "bg-yellow-500"
  else "bg-red-500".

End Ethics.

(** ** JavaScript values and objects *)

#[local] Unset Elimination Schemes.
Inductive Value : Type :=
| VUndefined
| VNull
| VBool (b : bool)
| VNum (n : Q)
| VStr (s : string)
| VArr (items : list Value)
| VObj (props : list (string * Value)).
#[local] Set Elimination Schemes.

Module Obj.

(** An object with string keys, as the list of its properties. *)
Definition t : Type := list (string * Value).

(** [o[k]]: [None] when the object has no such property. *)
Fixpoint get (o : t) (k : string) : option Value :=
  match o with
  | [] => None
  | (k', v) :: rest => if String.eqb k' k then Some v else get rest k
  end.

(** [{...o, [k]: v}] *)
Fixpoint set (o : t) (k : string) (v : Value) : t :=
  match o with
  | [] => [(k, v)]
  | (k', v') :: rest =>
      if String.eqb k' k then (k', v) :: rest else (k', v') :: set rest k v
  end.

(** [{...o1, ...o2}] *)
Definition spread (o1 o2 : t) : t :=
  fold_left (fun acc kv => set acc (fst kv) (snd kv)) o2 o1.

End Obj.

(** ** The ad store *)

Module AdStore.

Inductive Status : Type := Draft | Active | Paused | Completed.

Inductive Objective : Type := Awareness | Engagement | Conversion | Retention.

(** A [Date], as its time value. *)
Definition Date : Type := Z.

(** Successive readings of [new Date()] during one action. *)
Definition Clock : Type := nat -> Date.

Record Content : Type := mkContent
  { headline : string;
    description : string;
    callToAction : string;
    visualElements : Obj.t;
    videoScript : option string }.

Record GeneratedAd : Type := mkGeneratedAd
  { id : string;
    templateId : string;
    userId : string;
    campaignId : option string;
    content : Content;
    targeting : Value;
    generation : Value;
    predictions : Value;
    performance : option Value;
    createdAt : Date;
    updatedAt : Date;
    status : Status }.

(** [Partial<GeneratedAd>]: [None] for a key that is absent. *)
Record Updates : Type := mkUpdates
  { uId : option string;
    uTemplateId : option string;
    uUserId : option string;
    uCampaignId : option (option string);
    uContent : option Content;
    uTargeting : option Value;
    uGeneration : option Value;
    uPredictions : option Value;
    uPerformance : option (option Value);
    uCreatedAt : option Date;
    uUpdatedAt : option Date;
    uStatus : option Status }.

Definition noUpdates : Updates :=
  mkUpdates None None None None None None None None None None None None.

Record Campaign : Type := mkCampaign
  { cId : string;
    cName : string;
    cDescription : string;
    cObjective : Objective;
    cBudget : Q;
    cStartDate : Date;
    cEndDate : Date;
    cStatus : Status;
    cTargetAudience : Value;
    cAds : list string;
    cPerformance : Value;
    cCreatedAt : Date;
    cUpdatedAt : Date }.

Record State : Type := mkState
  { templates : list Value;
    selectedTemplate : option Value;
    generatedAds : list GeneratedAd;
    currentAd : option GeneratedAd;
    campaigns : list Campaign;
    currentCampaign : option Campaign;
    isGenerating : bool;
    generationProgress : Q }.

Definition orKeep {A : Type} (u : option A) (old : A) : A :=
  match u with Some v => v | None => old end.

(** [{ ...ad, ...updates, updatedAt: now }] *)
Definition merge (ad : GeneratedAd) (updates : Updates) (now : Date) : GeneratedAd :=
  mkGeneratedAd
    (orKeep (uId updates) (id ad))
    (orKeep (uTemplateId updates) (templateId ad))
    (orKeep (uUserId updates) (userId ad))
    (orKeep (uCampaignId updates) (campaignId ad))
    (orKeep (uContent updates) (content ad))
    (orKeep (uTargeting updates) (targeting ad))
    (orKeep (uGeneration updates) (generation ad))
    (orKeep (uPredictions updates) (predictions ad))
    (orKeep (uPerformance updates) (performance ad))
    (orKeep (uCreatedAt updates) (createdAt ad))
    now
    (orKeep (uStatus updates) (status ad)).

(** [ads.map(ad => ad.id === adId ? f(ad, new Date()) : ad)]: the clock is
    read once for each ad that matches, from reading [k] on; the result
    comes with the number of the next reading. *)
Fixpoint mapMatching (adId : string) (f : GeneratedAd -> Date -> GeneratedAd)
    (clock : Clock) (k : nat) (ads : list GeneratedAd) : list GeneratedAd * nat :=
  match ads with
  | [] => ([], k)
  | ad :: rest =>
      if String.eqb (id ad) adId
      then let (rest', k') := mapMatching adId f clock (S k) rest in
           (f ad (clock k) :: rest', k')
      else let (rest', k') := mapMatching adId f clock k rest in
           (ad :: rest', k')
  end.

Definition saveAd (ad : GeneratedAd) (st : State) : State :=
  mkState (templates st) (selectedTemplate st) (generatedAds st ++ [ad]) (currentAd st)
    (campaigns st) (currentCampaign st) (isGenerating st) (generationProgress st).

Definition updateAd (adId : string) (updates : Updates) (clock : Clock) (st : State) : State :=
  let (ads', k) :=
    mapMatching adId (fun ad now => merge ad updates now) clock 0 (generatedAds st) in
  mkState (templates st) (selectedTemplate st) ads'
    (match currentAd st with
     | Some cur => if String.eqb (id cur) adId
                   then Some (merge cur updates (clock k)) else Some cur
     | None => None
     end)
    (campaigns st) (currentCampaign st) (isGenerating st) (generationProgress st).

Definition deleteAd (adId : string) (st : State) : State :=
  mkState (templates st) (selectedTemplate st)
    (filter (fun ad => negb (String.eqb (id ad) adId)) (generatedAds st))
    (match currentAd st with
     | Some cur => if String.eqb (id cur) adId then None else Some cur
     | None => None
     end)
    (campaigns st) (currentCampaign st) (isGenerating st) (generationProgress st).

(** [duplicateAd]: [inl] is the message of the [Error] thrown; [newId] is
    the identifier drawn for the copy. *)
Definition duplicateAd (adId newId : string) (clock : Clock) (st : State)
    : string + (GeneratedAd * State) :=
  match find (fun ad => String.eqb (id ad) adId) (generatedAds st) with
  | None => inl "Ad not found"
  | Some originalAd =>
      let duplicatedAd :=
        mkGeneratedAd newId (templateId originalAd) (userId originalAd)
          (campaignId originalAd) (content originalAd) (targeting originalAd)
          (generation originalAd) (predictions originalAd) (performance originalAd)
          (clock 0%nat) (clock 1%nat) Draft in
      inr (duplicatedAd,
           mkState (templates st) (selectedTemplate st) (generatedAds st ++ [duplicatedAd])
             (currentAd st) (campaigns st) (currentCampaign st) (isGenerating st)
             (generationProgress st))
  end.

Definition updateAdPerformance (adId : string) (perf : option Value) (clock : Clock)
    (st : State) : State :=
  mkState (templates st) (selectedTemplate st)
    (fst (mapMatching adId
            (fun ad now =>
               mkGeneratedAd (id ad) (templateId ad) (userId ad) (campaignId ad) (content ad)
                 (targeting ad) (generation ad) (predictions ad) perf (createdAt ad) now
                 (status ad))
            clock 0 (generatedAds st)))
    (currentAd st) (campaigns st) (currentCampaign st) (isGenerating st)
    (generationProgress st).

(** [campaigns.map(c => c.id === campaignId ? f(c, new Date()) : c)] *)
Fixpoint mapCampaign (campaignId : string) (f : Campaign -> Date -> Campaign)
    (clock : Clock) (k : nat) (cs : list Campaign) : list Campaign :=
  match cs with
  | [] => []
  | c :: rest =>
      if String.eqb (cId c) campaignId
      then f c (clock k) :: mapCampaign campaignId f clock (S k) rest
      else c :: mapCampaign campaignId f clock k rest
  end.

Definition withAds (c : Campaign) (ads : list string) (now : Date) : Campaign :=
  mkCampaign (cId c) (cName c) (cDescription c) (cObjective c) (cBudget c) (cStartDate c)
    (cEndDate c) (cStatus c) (cTargetAudience c) ads (cPerformance c) (cCreatedAt c) now.

Definition addAdToCampaign (campaignId adId : string) (clock : Clock) (st : State) : State :=
  mkState (templates st) (selectedTemplate st) (generatedAds st) (currentAd st)
    (mapCampaign campaignId (fun c now => withAds c (cAds c ++ [adId]) now) clock 0
       (campaigns st))
    (currentCampaign st) (isGenerating st) (generationProgress st).

Definition removeAdFromCampaign (campaignId adId : string) (clock : Clock) (st : State)
    : State :=
  mkState (templates st) (selectedTemplate st) (generatedAds st) (currentAd st)
    (mapCampaign campaignId
       (fun c now => withAds c (filter (fun i => negb (String.eqb i adId)) (cAds c)) now)
       clock 0 (campaigns st))
    (currentCampaign st) (isGenerating st) (generationProgress st).

Definition getAgeGroup (age : Q) : string :=
  if JS.ltb age 25 then "young adults"
  else if JS.ltb age 35 then "millennials"
  else if JS.ltb age 50 then "professionals"
  else if JS.ltb age 65 then "experienced professionals"
  else "seniors".

(** The position of an age group, youngest first. *)
Definition groupRank (g : string) : nat :=
  if String.eqb g "young adults" then 0
  else if String.eqb g "millennials" then 1
  else if String.eqb g "professionals" then 2
  else if String.eqb g "experienced professionals" then 3
  else 4.

(** The current ad, when there is one, has the identifier of a stored ad. *)
Definition currentListed (st : State) : Prop :=
  match currentAd st with
  | Some cur => exists ad, In ad (generatedAds st) /\ id ad = id cur
  | None => True
  end.

(** What the preview reads of a stored ad. *)
Definition toPreview (ad : GeneratedAd) : Ad :=
  mkAd (id ad) (AdContent.mk (headline (content ad)) (description (content ad))
                  (callToAction (content ad))).

End AdStore.

(** ** The handlers of the customization screen *)

Module Customizer.

(** The component state the handlers use: [customizations] as the object
    it is, with computed keys, and the ad the screen was opened with. *)
Record Screen : Type := mkScreen
  { customizations : Obj.t;
    selectedAd : option AdStore.GeneratedAd }.

Definition contentUpdate (cnt : AdStore.Content) : AdStore.Updates :=
  AdStore.mkUpdates None None None None (Some cnt) None None None None None None None.

Definition withVisualElements (cnt : AdStore.Content) (ve : Obj.t) : AdStore.Content :=
  AdStore.mkContent (AdStore.headline cnt) (AdStore.description cnt)
    (AdStore.callToAction cnt) ve (AdStore.videoScript cnt).

Definition handleCustomizationChange (key : string) (value : Value) (clock : AdStore.Clock)
    (scr : Screen) (st : AdStore.State) : Screen * AdStore.State :=
  let scr' := mkScreen (Obj.set (customizations scr) key value) (selectedAd scr) in
  match selectedAd scr with
  | Some ad =>
      (scr',
       AdStore.updateAd (AdStore.id ad)
         (contentUpdate
            (withVisualElements (AdStore.content ad)
               (Obj.set (AdStore.visualElements (AdStore.content ad)) key value)))
         clock st)
  | None => (scr', st)
  end.

Definition saveCustomizations (clock : AdStore.Clock) (scr : Screen) (st : AdStore.State)
    : AdStore.State :=
  match selectedAd scr with
  | None => st
  | Some ad =>
      AdStore.updateAd (AdStore.id ad)
        (contentUpdate
           (withVisualElements (AdStore.content ad)
              (Obj.spread (AdStore.visualElements (AdStore.content ad))
                 (customizations scr))))
        clock st
  end.

End Customizer.

(** ** Concrete stores *)

Module StoreSample.
Import AdStore.

Definition colours : Obj.t :=
  [("backgroundColor", VStr "#ffffff"); ("textColor", VStr "#000000");
   ("accentColor", VStr "#007bff")].

Definition ad (i : string) : GeneratedAd :=
  mkGeneratedAd i "1" "u1" None
    (mkContent "Save Today" "Get 20% off" "Shop Now" colours None)
    VNull VNull VNull None 1000%Z 1000%Z Draft.

Definition campaign : Campaign :=
  mkCampaign "c1" "Spring" "Spring sale" Conversion 500 0%Z 86400000%Z Draft VNull ["a"]
    VNull 1000%Z 1000%Z.

Definition store : State :=
  mkState [] None [ad "a"; ad "b"] (Some (ad "a")) [campaign] (Some campaign) false 100.

(** A clock that advances by one millisecond at each reading. *)
Definition ticking (k : nat) : Date := (2000 + Z.of_nat k)%Z.

Definition screen : Customizer.Screen := Customizer.mkScreen [] (Some (ad "a")).

End StoreSample.

(** ** The AI store *)

Module AIStore.

(** [s.toLowerCase()] on the letters A to Z; the two words searched for
    below are made of the letters a to z only, and no other character
    lower-cases to a run of these letters that one of the words could
    match. *)
Definition lowerChar (a : ascii) : ascii :=
  let n := nat_of_ascii a in
  if ((65 <=? n) && (n <=? 90))%nat then ascii_of_nat (n + 32) else a.

Fixpoint toLowerCase (s : string) : string :=
  match s with
  | EmptyString => EmptyString
  | String a rest => String (lowerChar a) (toLowerCase rest)
  end.

(** [s.startsWith(t)] *)
Fixpoint startsWith (s t : string) {struct t} : bool :=
  match t, s with
  | EmptyString, _ => true
  | String b t', String a s' => Ascii.eqb a b && startsWith s' t'
  | String _ _, EmptyString => false
  end.

(** [s.includes(t)] *)
Fixpoint includes (s t : string) : bool :=
  startsWith s t ||
  match s with
  | EmptyString => false
  | String _ rest => includes rest t
  end.

Inductive BiasType : Type := Demographic | Cultural | Economic | Accessibility.

Inductive Severity : Type := Low | Medium | High | Critical.

Record BiasDetection : Type := mkBiasDetection
  { type : BiasType;
    severity : Severity;
    description : string;
    suggestion : string;
    affectedGroups : list string;
    detectedAt : AdStore.Date }.

Record Usage : Type := mkUsage
  { totalTokens : Q;
    totalCost : Q;
    requestsToday : Q;
    dailyLimit : Q }.

(** The fields of the store that the actions below read or write. *)
Record State : Type := mkState
  { biasDetections : list BiasDetection;
    biasMonitoringEnabled : bool;
    usage : Usage }.

Definition initial : State := mkState [] true (mkUsage 0 0 0 10000).

(** [detectBias], once its delay has passed: the detections it returns and
    the store it leaves. *)
Definition detectBias (content : string) (clock : AdStore.Clock) (st : State)
    : list BiasDetection * State :=
  let biases :=
    if includes (toLowerCase content) "young" || includes (toLowerCase content) "millennial"
    then [ mkBiasDetection Demographic Medium
             "Content may exclude older demographics"
             "Consider using age-inclusive language"
             ["older adults"; "seniors"]
             (clock 0%nat) ]
    else [] in
  (biases, mkState (biasDetections st ++ biases) (biasMonitoringEnabled st) (usage st)).

(** The usage counters are JavaScript numbers, doubles, and [updateUsage]
    adds to them with [+]: each sum is the exact sum rounded to a double.
    [plus] stands for that rounded sum; the counters are read by their
    values. *)
Section Usage.
Variable plus : Q -> Q -> Q.

Definition updateUsage (tokens cost : Q) (st : State) : State :=
  mkState (biasDetections st) (biasMonitoringEnabled st)
    (mkUsage (plus (totalTokens (usage st)) tokens) (plus (totalCost (usage st)) cost)
       (plus (requestsToday (usage st)) 1) (dailyLimit (usage st))).

(** A run of [updateUsage] calls, one per request, oldest first. *)
Definition recordRequests (requests : list (Q * Q)) (st : State) : State :=
  fold_left (fun acc r => updateUsage (fst r) (snd r) acc) requests st.

End Usage.

Definition resetDailyUsage (st : State) : State :=
  mkState (biasDetections st) (biasMonitoringEnabled st)
    (mkUsage (totalTokens (usage st)) (totalCost (usage st)) 0 (dailyLimit (usage st))).

(** The number [x] is the integer [n], of magnitude at most 2^53: up to
    there every integer is a double. *)
Definition safeInteger (x : Q) (n : Z) : Prop :=
  x == inject_Z n /\ (Z.abs n <= 2 ^ 53)%Z.

(** What rounding leaves of exact addition: the sum of two such integers
    is their exact sum when that is again of magnitude at most 2^53. *)
Definition exactOnIntegers (plus : Q -> Q -> Q) : Prop :=
  forall (x y : Q) (a b : Z),
    safeInteger x a -> safeInteger y b -> (Z.abs (a + b) <= 2 ^ 53)%Z ->
    plus x y == inject_Z (a + b).

Definition sumZ (l : list Z) : Z := fold_right Z.add 0%Z l.

(** The requests of a run whose token counts are integers. *)
Definition withTokens (requests : list (Z * Q)) : list (Q * Q) :=
  map (fun r => (inject_Z (fst r), snd r)) requests.

End AIStore.

(** The position of a score colour, worst first. *)
Definition colourRank (c : string) : nat :=
  if String.eqb c "text-green-600" || String.eqb c "bg-green-500" then 2
  else if String.eqb c "text-yellow-600" || String.eqb c "bg-yellow-500" then 1
  else 0.

(** ** Proof automation *)

(** Runs the canvas monad on an explicit state. *)
Ltac run_canvas :=
  cbv [CanvasM.bind CanvasM.when negb CanvasM.setWidth CanvasM.setHeight CanvasM.modify
       CanvasM.modifyCur CanvasM.setFillStyle CanvasM.getWidth CanvasM.getHeight
       CanvasM.fillRect CanvasM.fillText CanvasM.emit CanvasM.save roundRect
       CanvasM.beginPath CanvasM.moveTo CanvasM.lineTo CanvasM.quadraticCurveTo
       CanvasM.closePath CanvasM.setPath CanvasM.clip CanvasM.createLinearGradient
       CanvasM.addColorStop CanvasM.setFont CanvasM.setTextAlign CanvasM.ret
       Canvas.width Canvas.height Canvas.cur Canvas.path Canvas.saved Canvas.ops
       Canvas.fillStyle Canvas.font Canvas.textAlign Canvas.shadowColor Canvas.shadowBlur
       Canvas.shadowOffsetX Canvas.shadowOffsetY Canvas.clipRegion Canvas.gx0 Canvas.gy0
       Canvas.gx1 Canvas.gy1 Canvas.stops Canvas.defaultDrawState].

(** Quotients by 2 and 3 as products, for the linear arithmetic solver. *)
Ltac halves :=
  unfold Qdiv in *;
  change (/ 2) with (1 # 2) in *;
  change (/ 3) with (1 # 3) in *.

(** * Properties *)

(** ** Numbers and strings *)

Lemma ltb_lt (a b : Q) : JS.ltb a b = true <-> a < b.
Proof.
  unfold JS.ltb. rewrite negb_true_iff. split; intro H.
  - apply Qnot_le_lt. intro Hle. apply Qle_bool_iff in Hle. congruence.
  - destruct (Qle_bool b a) eqn:E; [|reflexivity].
    apply Qle_bool_iff in E. exfalso. apply (Qlt_not_le _ _ H E).
Qed.

Lemma ltb_ge (a b : Q) : JS.ltb a b = false <-> b <= a.
Proof.
  unfold JS.ltb. rewrite negb_false_iff. apply Qle_bool_iff.
Qed.

Lemma append_assoc (a b c : string) : ((a ++ b) ++ c = a ++ (b ++ c))%string.
Proof. induction a as [|ch a IH]; simpl; [reflexivity | now rewrite IH]. Qed.

Lemma split_nonempty (s : string) : JS.split s <> [].
Proof.
  induction s as [|c s IH]; simpl; [discriminate|].
  destruct (Ascii.eqb c " "); [discriminate|].
  destruct (JS.split s); discriminate.
Qed.

Lemma join_cons (w : string) (l : list string) :
  l <> [] -> JS.join (w :: l) = (w ++ " " ++ JS.join l)%string.
Proof. destruct l; [congruence | reflexivity]. Qed.

Lemma join_split (s : string) : JS.join (JS.split s) = s.
Proof.
  induction s as [|c s IH]; [reflexivity|].
  simpl JS.split. destruct (Ascii.eqb c " ") eqn:E.
  - apply Ascii.eqb_eq in E. subst c.
    rewrite join_cons by apply split_nonempty. simpl. now rewrite IH.
  - destruct (JS.split s) as [|w ws] eqn:Es; [now destruct (split_nonempty s)|].
    destruct ws as [|w' ws].
    + simpl in *. now subst.
    + rewrite <- IH. rewrite !join_cons by discriminate. reflexivity.
Qed.

Lemma split_app_space (a b : string) :
  JS.split (a ++ " " ++ b) = (JS.split a ++ JS.split b)%list.
Proof.
  induction a as [|c a IH]; [reflexivity|].
  simpl. destruct (Ascii.eqb c " ").
  - simpl in IH. now rewrite IH.
  - simpl in IH. rewrite IH.
    destruct (JS.split a) eqn:Ea; [now destruct (split_nonempty a)|reflexivity].
Qed.

Lemma split_pieces (s : string) : Forall (fun w => JS.split w = [w]) (JS.split s).
Proof.
  induction s as [|c s IH]; simpl.
  - repeat constructor.
  - destruct (Ascii.eqb c " ") eqn:E.
    + constructor; [reflexivity | exact IH].
    + destruct (JS.split s) as [|w ws]; [repeat constructor; simpl; now rewrite E|].
      inversion IH as [|? ? Hw Hws]; subst.
      constructor; [|exact Hws].
      simpl. rewrite E, Hw. reflexivity.
Qed.

Lemma concat_split_pieces (ws : list string) :
  Forall (fun w => JS.split w = [w]) ws -> List.concat (map JS.split ws) = ws.
Proof.
  induction 1 as [|w ws Hw _ IH]; simpl; [reflexivity|].
  now rewrite Hw, IH.
Qed.

Lemma join_merge (l r : list string) (a b : string) :
  JS.join (l ++ (a ++ " " ++ b)%string :: r) = JS.join (l ++ a :: b :: r).
Proof.
  induction l as [|x l IH].
  - rewrite !app_nil_l. rewrite (join_cons a) by discriminate.
    destruct r as [|r0 r]; [reflexivity|].
    rewrite (join_cons b) by discriminate.
    rewrite join_cons by discriminate.
    rewrite append_assoc. reflexivity.
  - rewrite <- !app_comm_cons.
    rewrite (join_cons x (l ++ (a ++ " " ++ b)%string :: r)) by (destruct l; discriminate).
    rewrite (join_cons x (l ++ a :: b :: r)) by (destruct l; discriminate).
    now rewrite IH.
Qed.

Example split_keeps_empty_pieces : JS.split "a  b c" = ["a"; ""; "b"; "c"].
Proof. reflexivity. Qed.

Example split_empty : JS.split "" = [""].
Proof. reflexivity. Qed.

Example join_example : JS.join ["hello big"; "wide world"] = "hello big wide world".
Proof. reflexivity. Qed.

(** ** The greedy loop *)

Section WrapLoop.
Import Canvas.
Variable measure : Font -> string -> Q.
Variable ctx : State.
Variable maxWidth : Q.

Lemma wrapLoop_nil (lines : list string) (currentLine : string) :
  wrapLoop measure ctx maxWidth [] lines currentLine = (lines ++ [currentLine])%list.
Proof. reflexivity. Qed.

Lemma wrapLoop_cons (word : string) (rest lines : list string) (currentLine : string) :
  wrapLoop measure ctx maxWidth (word :: rest) lines currentLine =
  if JS.ltb (measureText measure ctx (currentLine ++ " " ++ word)) maxWidth
  then wrapLoop measure ctx maxWidth rest lines (currentLine ++ " " ++ word)
  else wrapLoop measure ctx maxWidth rest (lines ++ [currentLine])%list word.
Proof. reflexivity. Qed.

Lemma wrapLoop_join (rest lines : list string) (currentLine : string) :
  JS.join (wrapLoop measure ctx maxWidth rest lines currentLine) = JS.join (lines ++ currentLine :: rest).
Proof.
  revert lines currentLine.
  induction rest as [|word rest IH]; intros lines currentLine; [reflexivity | rewrite wrapLoop_cons].
  destruct (JS.ltb _ _).
  - rewrite IH. apply join_merge.
  - rewrite IH, <- app_assoc. reflexivity.
Qed.

Lemma wrapLoop_words (rest lines : list string) (currentLine : string) :
  List.concat (map JS.split (wrapLoop measure ctx maxWidth rest lines currentLine)) =
  (List.concat (map JS.split lines) ++ JS.split currentLine ++ List.concat (map JS.split rest))%list.
Proof.
  revert lines currentLine.
  induction rest as [|word rest IH]; intros lines currentLine; [rewrite wrapLoop_nil | rewrite wrapLoop_cons].
  - rewrite map_app, concat_app. simpl. reflexivity.
  - destruct (JS.ltb _ _); rewrite IH.
    + rewrite split_app_space, <- !app_assoc. reflexivity.
    + rewrite map_app, concat_app. simpl List.concat. rewrite <- !app_assoc. reflexivity.
Qed.

Lemma wrapLoop_nonempty (rest lines : list string) (currentLine : string) :
  wrapLoop measure ctx maxWidth rest lines currentLine <> [].
Proof.
  revert lines currentLine.
  induction rest as [|word rest IH]; intros lines currentLine; [rewrite wrapLoop_nil | rewrite wrapLoop_cons].
  - destruct lines; discriminate.
  - destruct (JS.ltb _ _); apply IH.
Qed.

Lemma wrapLoop_keeps (rest lines : list string) (currentLine l : string) :
  In l lines -> In l (wrapLoop measure ctx maxWidth rest lines currentLine).
Proof.
  revert lines currentLine.
  induction rest as [|word rest IH]; intros lines currentLine Hin; [rewrite wrapLoop_nil | rewrite wrapLoop_cons].
  - apply in_or_app. now left.
  - destruct (JS.ltb _ _); apply IH; [assumption|].
    apply in_or_app. now left.
Qed.

(** A line is either accepted by the width test or a bare word. *)
Lemma wrapLoop_fit (P : string -> Prop) (rest lines : list string) (currentLine : string) :
  (forall l, measureText measure ctx l < maxWidth -> P l) ->
  Forall P lines -> P currentLine -> Forall P rest ->
  Forall P (wrapLoop measure ctx maxWidth rest lines currentLine).
Proof.
  intros Hacc. revert lines currentLine.
  induction rest as [|word rest IH]; intros lines currentLine Hl Hc Hr; [rewrite wrapLoop_nil | rewrite wrapLoop_cons].
  - apply Forall_app. split; [assumption | now constructor].
  - inversion Hr as [|? ? Hw Hrest]; subst.
    destruct (JS.ltb _ _) eqn:E.
    + apply IH; try assumption. apply Hacc. now apply ltb_lt.
    + apply IH; try assumption.
      apply Forall_app. split; [assumption | now constructor].
Qed.

Hypothesis grows_left : forall a b, measureText measure ctx a <= measureText measure ctx (a ++ " " ++ b).
Hypothesis grows_right : forall a b, measureText measure ctx b <= measureText measure ctx (a ++ " " ++ b).

Lemma wrapLoop_wide_current (rest lines : list string) (currentLine : string) :
  maxWidth < measureText measure ctx currentLine ->
  In currentLine (wrapLoop measure ctx maxWidth rest lines currentLine).
Proof.
  intros Hwide. destruct rest as [|word rest]; [rewrite wrapLoop_nil | rewrite wrapLoop_cons].
  - apply in_or_app. right. now left.
  - assert (E : JS.ltb (measureText measure ctx (currentLine ++ " " ++ word)) maxWidth = false).
    { apply ltb_ge. apply Qlt_le_weak. eapply Qlt_le_trans; [exact Hwide | apply grows_left]. }
    rewrite E. apply wrapLoop_keeps. apply in_or_app. right. now left.
Qed.

Lemma wrapLoop_wide_word (rest lines : list string) (currentLine w : string) :
  In w (currentLine :: rest) -> maxWidth < measureText measure ctx w ->
  In w (wrapLoop measure ctx maxWidth rest lines currentLine).
Proof.
  revert lines currentLine.
  induction rest as [|word rest IH]; intros lines currentLine Hin Hwide.
  - destruct Hin as [<-|[]]. now apply wrapLoop_wide_current.
  - destruct Hin as [<-|Hin]; [now apply wrapLoop_wide_current|].
    rewrite wrapLoop_cons.
    destruct (JS.ltb _ _) eqn:E.
    + destruct Hin as [<-|Hin].
      * exfalso. apply ltb_lt in E.
        apply (Qlt_irrefl maxWidth).
        eapply Qlt_trans; [exact Hwide|].
        eapply Qle_lt_trans; [apply (grows_right currentLine word) | exact E].
      * apply IH; [now right | assumption].
    + apply IH; assumption.
Qed.

End WrapLoop.

(** ** [wrapText] and [drawText] *)

Section WrapText.
Import Canvas CanvasM.
Variable measure : Font -> string -> Q.

Lemma wrapText_unfold (ctx : State) (text : string) (maxWidth : Q) :
  exists w0 rest, JS.split text = w0 :: rest /\
    wrapText measure ctx text maxWidth = wrapLoop measure ctx maxWidth rest [] w0.
Proof.
  unfold wrapText. destruct (JS.split text) as [|w0 rest] eqn:E.
  - now destruct (split_nonempty text).
  - exists w0, rest. split; reflexivity.
Qed.

(** The loop looks at the context only through its font. *)
Lemma wrapLoop_font (s s' : State) (maxWidth : Q) (rest lines : list string) (cl : string) :
  font (cur s) = font (cur s') ->
  wrapLoop measure s maxWidth rest lines cl = wrapLoop measure s' maxWidth rest lines cl.
Proof.
  intros Hf. revert lines cl.
  induction rest as [|word rest IH]; intros lines cl; [reflexivity|].
  rewrite !wrapLoop_cons. unfold measureText. rewrite Hf.
  destruct (JS.ltb _ _); apply IH.
Qed.

Lemma wrapText_font (s s' : State) (text : string) (maxWidth : Q) :
  font (cur s) = font (cur s') ->
  wrapText measure s text maxWidth = wrapText measure s' text maxWidth.
Proof. intros Hf. unfold wrapText. now apply wrapLoop_font. Qed.

Lemma wrapText_words (ctx : State) (text : string) (maxWidth : Q) :
  List.concat (map JS.split (wrapText measure ctx text maxWidth)) = JS.split text.
Proof.
  destruct (wrapText_unfold ctx text maxWidth) as (w0 & rest & Hs & ->).
  rewrite wrapLoop_words. simpl List.concat at 1. simpl app.
  pose proof (split_pieces text) as Hp. rewrite Hs in Hp.
  inversion Hp as [|? ? H0 Hr]; subst.
  rewrite H0, (concat_split_pieces rest Hr), Hs. reflexivity.
Qed.

Lemma forEach_fillText (x : Q) (yOf : nat -> Q) (lines : list string) (index : nat) (s : State) :
  forEach (fun line i => fillText line x (yOf i)) lines index s =
  (tt, mkState (width s) (height s) (cur s) (path s) (saved s)
         (ops s ++ Trace.textOps (cur s) x yOf lines index)).
Proof.
  revert index s. induction lines as [|line rest IH]; intros index s.
  - destruct s; simpl. now rewrite app_nil_r.
  - simpl. unfold bind at 1. unfold fillText at 1, emit, modify.
    rewrite IH. simpl. now rewrite <- app_assoc.
Qed.

Lemma drawText_run (c : Customizations) (text : string) (x y maxWidth : Q) (s : State) :
  drawText measure c text x y maxWidth s =
  (tt, mkState (width s) (height s) (cur s) (path s) (saved s)
         (ops s ++ Trace.textOps (cur s) x (Trace.lineY c y)
                     (wrapText measure (Trace.stateWith (cur s)) text maxWidth) 0)).
Proof.
  rewrite (wrapText_font (Trace.stateWith (cur s)) s) by reflexivity.
  unfold drawText. apply forEach_fillText.
Qed.

Lemma textsOf_textOps (d : DrawState) (x : Q) (yOf : nat -> Q) (lines : list string)
    (index : nat) :
  Trace.textsOf (Trace.textOps d x yOf lines index) = lines.
Proof.
  revert index. induction lines as [|line rest IH]; intros index; simpl; [reflexivity|].
  now rewrite IH.
Qed.

End WrapText.

Example wrapText_example :
  wrapText Sample.fixedPitch Sample.fresh "hello big wide world of ads" 70
  = ["hello big"; "wide world"; "of ads"].
Proof. vm_compute. reflexivity. Qed.

(** C1.  For every text and every positive [maxWidth], every line that
    [wrapText] returns either measures at most [maxWidth] or is a single
    word of the text that is by itself wider than [maxWidth].  No word is
    dropped: every word of the text lies on some line, and when widths
    grow with the text, a word wider than [maxWidth] is a line of its own.
    [drawText] draws exactly these lines, one call per line. *)
Theorem wrapText_lines_fit
    (measure : Canvas.Font -> string -> Q) (ctx : Canvas.State)
    (text : string) (maxWidth : Q) (Hpos : 0 < maxWidth) :
  let lines := wrapText measure ctx text maxWidth in
  let w := measureText measure ctx in
  Forall (fun line => w line <= maxWidth \/
                      (In line (JS.split text) /\ maxWidth < w line)) lines
  /\ (forall word, In word (JS.split text) ->
        exists line, In line lines /\ In word (JS.split line))
  /\ ((forall a b, w a <= w (a ++ " " ++ b)) ->
      (forall a b, w b <= w (a ++ " " ++ b)) ->
      forall word, In word (JS.split text) -> maxWidth < w word -> In word lines)
  /\ (forall (c : Customizations) (x y : Q),
        Canvas.ops (CanvasM.exec (drawText measure c text x y maxWidth) ctx) =
        (Canvas.ops ctx ++
           Trace.textOps (Canvas.cur ctx) x (Trace.lineY c y) lines 0)%list).
Proof.
  intros lines w. subst lines w.
  destruct (wrapText_unfold measure ctx text maxWidth) as (w0 & rest & Hs & Hw).
  repeat split.
  - rewrite Hw, Hs.
    apply wrapLoop_fit.
    + intros l Hl. left. now apply Qlt_le_weak.
    + constructor.
    + destruct (Qlt_le_dec maxWidth (measureText measure ctx w0)) as [Hgt|Hle].
      * right. split; [now left | assumption].
      * now left.
    + apply Forall_forall. intros l Hl.
      destruct (Qlt_le_dec maxWidth (measureText measure ctx l)) as [Hgt|Hle].
      * right. split; [now right | assumption].
      * now left.
  - intros word Hin.
    rewrite <- (wrapText_words measure ctx text maxWidth) in Hin.
    apply in_concat in Hin. destruct Hin as (l & Hl & Hword).
    apply in_map_iff in Hl. destruct Hl as (line & <- & Hline).
    exists line. now split.
  - intros Hleft Hright word Hin Hwide. rewrite Hw.
    apply wrapLoop_wide_word; try assumption. now rewrite <- Hs.
  - intros c x y. unfold CanvasM.exec. rewrite drawText_run.
    rewrite (wrapText_font measure (Trace.stateWith (Canvas.cur ctx)) ctx) by reflexivity.
    reflexivity.
Qed.

(** C9.  Joining the lines of [wrapText] with single spaces gives back the
    text, the words of the lines are the words of the text in order, the
    list of lines is never empty, and the empty text gives the single
    empty line.  The strings that [drawText] draws are these lines. *)
Theorem wrapText_join_roundtrip
    (measure : Canvas.Font -> string -> Q) (ctx : Canvas.State)
    (text : string) (maxWidth : Q) :
  JS.join (wrapText measure ctx text maxWidth) = text
  /\ List.concat (map JS.split (wrapText measure ctx text maxWidth)) = JS.split text
  /\ wrapText measure ctx text maxWidth <> []
  /\ wrapText measure ctx EmptyString maxWidth = [EmptyString]
  /\ (forall (c : Customizations) (x y : Q),
        Trace.textsOf (Canvas.ops (CanvasM.exec (drawText measure c text x y maxWidth) ctx)) =
        (Trace.textsOf (Canvas.ops ctx) ++ wrapText measure ctx text maxWidth)%list).
Proof.
  destruct (wrapText_unfold measure ctx text maxWidth) as (w0 & rest & Hs & Hw).
  split; [|split; [|split; [|split]]].
  - rewrite Hw, wrapLoop_join. simpl app. rewrite <- Hs. apply join_split.
  - apply wrapText_words.
  - rewrite Hw. apply wrapLoop_nonempty.
  - reflexivity.
  - intros c x y. unfold CanvasM.exec. rewrite drawText_run.
    rewrite (wrapText_font measure (Trace.stateWith (Canvas.cur ctx)) ctx) by reflexivity.
    cbn [snd Canvas.ops]. unfold Trace.textsOf. rewrite flat_map_app.
    f_equal. apply textsOf_textOps.
Qed.

(** ** The render procedure *)

Section Render.
Import Canvas CanvasM Trace.
Variable measure : Font -> string -> Q.
Variable c : Customizations.
Variable ad : Ad.
Variable mode : string.

Lemma roundRect_run (x y w h r : Q) (s : State) :
  roundRect x y w h r s =
  (tt, mkState (width s) (height s) (cur s) (roundedPath x y w h r) (saved s) (ops s)).
Proof. reflexivity. Qed.

(** The two dimension assignments make the rest of the render independent
    of the canvas it starts from. *)
Lemma updatePreview_reset (s s' : State) :
  updatePreview measure c (Some ad) mode s = updatePreview measure c (Some ad) mode s'.
Proof.
  unfold updatePreview. unfold bind at 1 2. unfold setWidth, setHeight, modify.
  unfold bind at 1. simpl. reflexivity.
Qed.

Lemma updatePreview_ops (s : State) :
  let W := surfaceWidth mode in
  let H := surfaceHeight mode in
  let l := calculateLayout c W H in
  ops (exec (updatePreview measure c (Some ad) mode) s) =
  (FillRect (stClear c) 0 0 W H :: overlayOps c W H ++
   textOps (stHeadline c W H) (TextRegion.x (Layout.headline l))
     (lineY c (TextRegion.y (Layout.headline l)))
     (wrapText measure (stateWith (stHeadline c W H))
        (getContentVariation c TypeHeadline (AdContent.headline (content ad)))
        (TextRegion.maxWidth (Layout.headline l))) 0 ++
   textOps (stDescription c W H) (TextRegion.x (Layout.description l))
     (lineY c (TextRegion.y (Layout.description l)))
     (wrapText measure (stateWith (stDescription c W H))
        (getContentVariation c TypeDescription (AdContent.description (content ad)))
        (TextRegion.maxWidth (Layout.description l))) 0 ++
   [ FillRect (stButton c W H) (ButtonRegion.x (Layout.cta l)) (ButtonRegion.y (Layout.cta l))
       (ButtonRegion.width (Layout.cta l)) (ButtonRegion.height (Layout.cta l));
     FillText (stLabel c W H)
       (getContentVariation c TypeCta (AdContent.callToAction (content ad)))
       (ButtonRegion.x (Layout.cta l) + ButtonRegion.width (Layout.cta l) / 2)
       (ButtonRegion.y (Layout.cta l) + ButtonRegion.height (Layout.cta l) / 2
        + fontSize c / 3) ])%list.
Proof.
  intros W H l. subst l.
  unfold exec, updatePreview, overlayOps, stOverlay, stHeadline, stDescription, stButton,
    stLabel, stClear, clipFor, overlay, inState.
  change (Dimensions.width (getCanvasDimensions mode)) with W.
  change (Dimensions.height (getCanvasDimensions mode)) with H.
  generalize (getContentVariation c TypeHeadline (AdContent.headline (content ad))).
  generalize (getContentVariation c TypeDescription (AdContent.description (content ad))).
  generalize (getContentVariation c TypeCta (AdContent.callToAction (content ad))).
  intros tc td th.
  clearbody W H.
  destruct (JS.gt0 (borderRadius c)), (String.eqb (accentColor c) (backgroundColor c)),
    (JS.gt0 (shadow c)), (String.eqb (animationType c) "none").
  all: run_canvas; rewrite drawText_run; run_canvas; rewrite drawText_run; run_canvas.
  all: cbv [drawButton applyAnimation restore setShadowColor setShadowBlur setShadowOffsetX
            setShadowOffsetY]; run_canvas.
  all: cbv [snd]; rewrite <- ?app_assoc; cbn [app].
  all: reflexivity.
Qed.

End Render.

(** ** Content variations *)

Lemma append_nil_r (s : string) : (s ++ "")%string = s.
Proof. induction s as [|a s IH]; simpl; [reflexivity | now rewrite IH]. Qed.

Lemma or_else_same (s : string) : JS.or_else (Some s) s = s.
Proof. now destruct s. Qed.

Lemma index_outside {A : Type} (arr : list A) (i : Z) :
  (i < 0 \/ Z.of_nat (List.length arr) <= i)%Z -> JS.index arr i = None.
Proof.
  intros Hi. unfold JS.index. destruct (i <? 0)%Z eqn:E; [reflexivity|].
  apply Z.ltb_ge in E. apply nth_error_None. lia.
Qed.

Lemma embeds_refl (s : string) : JS.embeds s s.
Proof. exists EmptyString, EmptyString. simpl. now rewrite append_nil_r. Qed.

Lemma embeds_suffix (s t : string) : JS.embeds (s ++ t) s.
Proof. exists EmptyString, t. reflexivity. Qed.

Lemma embeds_prefix (s t : string) : JS.embeds (t ++ s) s.
Proof. exists t, EmptyString. now rewrite append_nil_r. Qed.

Lemma variations_embed (type : VariationType) (orig v : string) :
  type <> TypeCta -> In v (variations type orig) -> JS.embeds v orig.
Proof.
  intros Ht Hin. destruct type; [| |congruence]; unfold variations in Hin;
    destruct Hin as [<-|[<-|[<-|[<-|[]]]]];
    first [apply embeds_refl | apply embeds_suffix | apply embeds_prefix].
Qed.

(** Whatever the index, a headline or description variation keeps the
    original text inside it. *)
Lemma getContentVariation_embeds (c : Customizations) (type : VariationType) (orig : string) :
  type <> TypeCta -> JS.embeds (getContentVariation c type orig) orig.
Proof.
  intros Ht. unfold getContentVariation.
  destruct (JS.index (variations type orig) (variationIndexOf c type)) as [v|] eqn:E;
    [|apply embeds_refl].
  assert (Hin : In v (variations type orig)).
  { unfold JS.index in E. destruct (_ <? 0)%Z; [discriminate|]. eapply nth_error_In; eauto. }
  pose proof (variations_embed type orig v Ht Hin) as Hv.
  destruct v; [apply embeds_refl | exact Hv].
Qed.

Example headline_variation_2 :
  getContentVariation (Sample.withVariations Sample.initial 2 0 0) TypeHeadline "Save Today"
  = "New: Save Today".
Proof. reflexivity. Qed.

(** C6.  A variation index below zero or at least the length of the variant
    array selects the original text: the lookup is total and its result is
    always a string. *)
Theorem getContentVariation_fallback
    (c : Customizations) (type : VariationType) (originalText : string)
    (Hout : (variationIndexOf c type < 0 \/
             Z.of_nat (List.length (variations type originalText)) <= variationIndexOf c type)%Z) :
  getContentVariation c type originalText = originalText.
Proof.
  unfold getContentVariation. now rewrite index_outside.
Qed.

Lemma getContentVariation_fallback_witness :
  (variationIndexOf (Sample.withVariations Sample.initial 7 (-1) 0) TypeHeadline < 0 \/
   Z.of_nat (List.length (variations TypeHeadline "Save Today"))
     <= variationIndexOf (Sample.withVariations Sample.initial 7 (-1) 0) TypeHeadline)%Z
  /\ getContentVariation (Sample.withVariations Sample.initial 7 (-1) 0)
       TypeHeadline "Save Today" = "Save Today".
Proof.
  assert (H : (variationIndexOf (Sample.withVariations Sample.initial 7 (-1) 0) TypeHeadline < 0 \/
     Z.of_nat (List.length (variations TypeHeadline "Save Today"))
       <= variationIndexOf (Sample.withVariations Sample.initial 7 (-1) 0) TypeHeadline)%Z).
  { right. simpl. lia. }
  split; [exact H|].
  exact (getContentVariation_fallback _ TypeHeadline "Save Today" H).
Defined.

(** C10.  With [ctaVariation] in 1..4 the call to action is the matching
    entry of the four fixed texts, the same for every original text; with
    any other index it is the original text.  Every headline and
    description variant, and so every headline and description that is
    displayed, contains the original text. *)
Theorem cta_variation_fixed (c : Customizations) (originalText : string) :
  ((1 <= ctaVariation c <= 4)%Z ->
     nth_error fixedCtas (Z.to_nat (ctaVariation c - 1))
       = Some (getContentVariation c TypeCta originalText)
     /\ In (getContentVariation c TypeCta originalText) fixedCtas
     /\ forall other, getContentVariation c TypeCta other
                      = getContentVariation c TypeCta originalText)
  /\ (~ (1 <= ctaVariation c <= 4)%Z ->
        getContentVariation c TypeCta originalText = originalText)
  /\ (forall v, In v (variations TypeHeadline originalText) -> JS.embeds v originalText)
  /\ (forall v, In v (variations TypeDescription originalText) -> JS.embeds v originalText)
  /\ JS.embeds (getContentVariation c TypeHeadline originalText) originalText
  /\ JS.embeds (getContentVariation c TypeDescription originalText) originalText.
Proof.
  split; [|split; [|repeat split]].
  - intros Hi.
    assert (Hc : ctaVariation c = 1%Z \/ ctaVariation c = 2%Z \/
                 ctaVariation c = 3%Z \/ ctaVariation c = 4%Z) by lia.
    unfold getContentVariation, variationIndexOf.
    destruct Hc as [-> | [-> | [-> | ->]]]; simpl; repeat split; auto 6.
  - intros Hi. unfold getContentVariation, variationIndexOf.
    destruct (Z.eq_dec (ctaVariation c) 0) as [-> | Hz].
    + simpl. apply or_else_same.
    + rewrite index_outside; [reflexivity|]. simpl. lia.
  - intros v. apply variations_embed. discriminate.
  - intros v. apply variations_embed. discriminate.
  - apply getContentVariation_embeds. discriminate.
  - apply getContentVariation_embeds. discriminate.
Qed.

(** ** Layout resolution *)




(** ** What the render draws *)

Section Drawn.
Import Canvas CanvasM Trace.
Variable measure : Font -> string -> Q.

Lemma textOps_Forall (P : DrawOp -> Prop) (d : DrawState) (x : Q) (yOf : nat -> Q)
    (lines : list string) (index : nat) :
  (forall line i, P (FillText d line x (yOf i))) ->
  Forall P (textOps d x yOf lines index).
Proof.
  intros HP. revert index. induction lines as [|line rest IH]; intros index; simpl.
  - constructor.
  - constructor; [apply HP | apply IH].
Qed.

Lemma textOps_no_gradient (d : DrawState) (x : Q) (yOf : nat -> Q)
    (lines : list string) (index : nat) :
  existsb isGradientFill (textOps d x yOf lines index) = false.
Proof.
  revert index. induction lines as [|line rest IH]; intros index; simpl; [reflexivity | apply IH].
Qed.

Lemma textOps_first (p : DrawOp -> bool) (d : DrawState) (x : Q) (yOf : nat -> Q)
    (lines : list string) (index : nat) :
  lines <> [] -> p (FillText d (hd EmptyString lines) x (yOf index)) = true ->
  existsb p (textOps d x yOf lines index) = true.
Proof.
  intros Hne Hp. destruct lines as [|line rest]; [congruence|].
  simpl in *. now rewrite Hp.
Qed.

Lemma wrapText_nonempty (ctx : State) (text : string) (maxWidth : Q) :
  wrapText measure ctx text maxWidth <> [].
Proof.
  destruct (wrapText_unfold measure ctx text maxWidth) as (w0 & rest & _ & ->).
  apply wrapLoop_nonempty.
Qed.

Lemma clipFor_rounded (c : Customizations) (W H : Q) :
  0 < borderRadius c -> clipFor c W H = [roundedPath 0 0 W H (borderRadius c)].
Proof.
  intros Hr. unfold clipFor, JS.gt0. apply ltb_lt in Hr. now rewrite Hr.
Qed.

Lemma render_no_gradient_after (c : Customizations) (ad : Ad) (mode : string) (s : State) :
  existsb isGradientFill (ops (exec (updatePreview measure c (Some ad) mode) s)) =
  negb (String.eqb (accentColor c) (backgroundColor c)).
Proof.
  rewrite updatePreview_ops. cbn [existsb isGradientFill stClear inState fillStyle orb].
  rewrite !existsb_app, !textOps_no_gradient.
  unfold overlayOps. destruct (String.eqb _ _); reflexivity.
Qed.

End Drawn.

(** C7.  The render draws a linear-gradient fill exactly when the accent
    colour differs from the background colour.  The gradient runs along the
    diagonal of the surface from the background colour at stop 0 to the
    accent colour with the suffix 20 at stop 1, an opacity of 32/255,
    between 12 and 13 percent.  With equal colours the calls after the flat
    background fill contain no gradient. *)
Theorem gradient_overlay_iff_accent_differs
    (measure : Canvas.Font -> string -> Q) (c : Customizations) (ad : Ad)
    (mode : string) (s : Canvas.State) :
  let W := surfaceWidth mode in
  let H := surfaceHeight mode in
  let tr := Canvas.ops (CanvasM.exec (updatePreview measure c (Some ad) mode) s) in
  (existsb Trace.isGradientFill tr = true <-> accentColor c <> backgroundColor c)
  /\ nth_error tr 0 = Some (Canvas.FillRect (Trace.stClear c) 0 0 W H)
  /\ Canvas.fillStyle (Trace.stClear c) = Canvas.Color (backgroundColor c)
  /\ (accentColor c <> backgroundColor c ->
        nth_error tr 1 = Some (Canvas.FillRect (Trace.stOverlay c W H) 0 0 W H)
        /\ Canvas.fillStyle (Trace.stOverlay c W H) =
             Canvas.Linear (Canvas.mkGradient 0 0 W H
                [(0, backgroundColor c); (1, (accentColor c ++ "20")%string)]))
  /\ (accentColor c = backgroundColor c -> existsb Trace.isGradientFill (tl tr) = false)
  /\ (exists a, Css.alphaOfSuffix "20" = Some a /\ a == 32 / 255 /\
                12 # 100 < a /\ a < 13 # 100).
Proof.
  intros W H tr.
  assert (Hg := render_no_gradient_after measure c ad mode s). fold tr in Hg.
  assert (Htr := updatePreview_ops measure c ad mode s).
  cbv zeta in Htr. fold W H tr in Htr.
  split; [split|]; [| |split; [|split; [|split; [|split]]]].
  - intros He Heq. rewrite Hg, Heq, String.eqb_refl in He. discriminate.
  - intros Hne. rewrite Hg. apply String.eqb_neq in Hne. now rewrite Hne.
  - now rewrite Htr.
  - reflexivity.
  - intros Hne. split; [|reflexivity].
    rewrite Htr. unfold Trace.overlayOps.
    apply String.eqb_neq in Hne. rewrite Hne. reflexivity.
  - intros Heq. rewrite Htr in Hg. cbn [existsb Trace.isGradientFill Trace.stClear
      Trace.inState Canvas.fillStyle orb] in Hg.
    rewrite Htr. cbn [tl]. rewrite Hg, Heq, String.eqb_refl. reflexivity.
  - exists (32 / 255). repeat split; reflexivity.
Qed.

(** The render does draw: six calls with the initial settings. *)
Example updatePreview_draws :
  List.length (Canvas.ops (CanvasM.exec
     (updatePreview Sample.fixedPitch Sample.initial (Some Sample.shortCopy) "desktop")
     Sample.fresh)) = 6%nat.
Proof. reflexivity. Qed.

(** C3, as the code has it.  With a positive [borderRadius] the render
    first fills the whole surface with the background colour, unclipped;
    it then builds the rounded rectangle over the full surface with
    [roundRect] and clips to it, and every later call (the gradient
    overlay, the text, the button) is clipped to exactly that path. *)
Theorem clip_follows_background_fill
    (measure : Canvas.Font -> string -> Q) (c : Customizations) (ad : Ad)
    (mode : string) (s : Canvas.State) (Hr : 0 < borderRadius c) :
  let W := surfaceWidth mode in
  let H := surfaceHeight mode in
  let p := Trace.roundedPath 0 0 W H (borderRadius c) in
  let tr := Canvas.ops (CanvasM.exec (updatePreview measure c (Some ad) mode) s) in
  (forall s', Canvas.path (CanvasM.exec (roundRect 0 0 W H (borderRadius c)) s') = p)
  /\ exists rest,
       tr = Canvas.FillRect (Trace.stClear c) 0 0 W H :: rest
       /\ Trace.clipOf (Canvas.FillRect (Trace.stClear c) 0 0 W H) = []
       /\ Trace.allClipped p rest.
Proof.
  intros W H p tr. split; [intros s'; unfold CanvasM.exec; now rewrite roundRect_run|].
  subst tr. rewrite updatePreview_ops. fold W H.
  eexists. split; [reflexivity|]. split; [reflexivity|].
  assert (Hc : Trace.clipFor c W H = [p]) by now apply clipFor_rounded.
  unfold Trace.allClipped.
  repeat (apply Forall_app; split).
  - unfold Trace.overlayOps. destruct (negb _); repeat constructor. exact Hc.
  - apply textOps_Forall. intros; exact Hc.
  - apply textOps_Forall. intros; exact Hc.
  - repeat constructor; exact Hc.
Qed.

Lemma clip_follows_background_fill_witness :
  0 < borderRadius Sample.initial /\
  exists rest,
    Canvas.ops (CanvasM.exec
      (updatePreview Sample.fixedPitch Sample.initial (Some Sample.shortCopy) "desktop")
      Sample.fresh)
    = Canvas.FillRect (Trace.stClear Sample.initial) 0 0 600 400 :: rest
    /\ Trace.allClipped (Trace.roundedPath 0 0 600 400 8) rest.
Proof.
  assert (Hr : 0 < borderRadius Sample.initial) by reflexivity.
  split; [exact Hr|].
  destruct (clip_follows_background_fill Sample.fixedPitch Sample.initial Sample.shortCopy
              "desktop" Sample.fresh Hr) as (_ & rest & Htr & _ & Hclip).
  exists rest. split; [exact Htr | exact Hclip].
Defined.

(** C3, as written, fails: with the initial settings ([borderRadius] 8) the
    first call, the background fill, is not clipped to the rounded
    rectangle. *)
Lemma clip_first_as_written_fails :
  ~ (0 < borderRadius Sample.initial ->
     Trace.allClipped (Trace.roundedPath 0 0 600 400 (borderRadius Sample.initial))
       (Canvas.ops (CanvasM.exec
          (updatePreview Sample.fixedPitch Sample.initial (Some Sample.shortCopy) "desktop")
          Sample.fresh))).
Proof.
  intros Hall. assert (Hr : 0 < borderRadius Sample.initial) by reflexivity.
  specialize (Hall Hr). rewrite updatePreview_ops in Hall.
  inversion Hall as [|o rest Ho _]. discriminate Ho.
Qed.

(** C5.  Rendering twice in a row leaves the canvas, and so its pixels
    under any rasteriser, exactly as rendering once: the two dimension
    assignments at the start of the render reset the bitmap and the
    context, so the result does not depend on the canvas it starts from. *)
Theorem updatePreview_idempotent
    (measure : Canvas.Font -> string -> Q) (c : Customizations)
    (selectedAd : option Ad) (previewMode : string) (s : Canvas.State) :
  let render := CanvasM.exec (updatePreview measure c selectedAd previewMode) in
  render (render s) = render s
  /\ (forall (Bitmap : Type) (blank : Q -> Q -> Bitmap)
             (paint : Bitmap -> Canvas.DrawOp -> Bitmap),
        pixels Bitmap blank paint (render (render s)) = pixels Bitmap blank paint (render s))
  /\ (forall ad, selectedAd = Some ad -> forall s', render s' = render s).
Proof.
  intros render.
  assert (Hidem : render (render s) = render s).
  { subst render. destruct selectedAd as [ad|]; [|reflexivity].
    unfold CanvasM.exec. now rewrite (updatePreview_reset measure c ad previewMode _ s). }
  repeat split.
  - exact Hidem.
  - intros Bitmap blank paint. now rewrite Hidem.
  - intros ad -> s'. subst render. unfold CanvasM.exec.
    now rewrite (updatePreview_reset measure c ad previewMode s' s).
Qed.

Lemma alignEqb_refl (a : Canvas.TextAlign) : TextCalls.alignEqb a a = true.
Proof. now destruct a. Qed.

Lemma alignEqb_eq (a b : Canvas.TextAlign) : TextCalls.alignEqb a b = true -> a = b.
Proof. destruct a, b; simpl; congruence. Qed.

Lemma allAligned_complete (a : Canvas.TextAlign) (tr : list Canvas.DrawOp) :
  Trace.textCallsAligned a tr -> TextCalls.allAligned a tr = true.
Proof.
  unfold Trace.textCallsAligned, TextCalls.allAligned.
  induction 1 as [|o rest Ho _ IH]; [reflexivity|].
  simpl. rewrite IH. destruct o; [now rewrite andb_true_r | subst a; now rewrite alignEqb_refl].
Qed.

(** C8, as the code has it.  With the centered layout on the mobile
    surface (320x400) the headline and the description are anchored at
    x = 320/2 = 160 and the button starts at x = 160 - 60 = 100, so that it
    is centred on 160.  The render draws the first headline line and the
    first description line at x = 160 with the alignment of the text
    alignment setting, the button rectangle from x = 100, and the button
    label at x = 160 with centre alignment.  Every text call starts at
    x = 160, and they are all issued with centre alignment exactly when the
    text alignment setting is centre. *)
Theorem centered_layout_on_mobile
    (measure : Canvas.Font -> string -> Q) (c : Customizations) (ad : Ad)
    (s : Canvas.State) (Hlayout : layout c = "centered") :
  let W := surfaceWidth "mobile" in
  let H := surfaceHeight "mobile" in
  let l := calculateLayout c W H in
  let headlineLines :=
    wrapText measure (Trace.stateWith (Trace.stHeadline c W H))
      (getContentVariation c TypeHeadline (AdContent.headline (content ad)))
      (TextRegion.maxWidth (Layout.headline l)) in
  let descriptionLines :=
    wrapText measure (Trace.stateWith (Trace.stDescription c W H))
      (getContentVariation c TypeDescription (AdContent.description (content ad)))
      (TextRegion.maxWidth (Layout.description l)) in
  let label := getContentVariation c TypeCta (AdContent.callToAction (content ad)) in
  let tr := Canvas.ops (CanvasM.exec (updatePreview measure c (Some ad) "mobile") s) in
  W = 320 /\ H = 400
  /\ TextRegion.x (Layout.headline l) == W / 2
  /\ TextRegion.x (Layout.headline l) == 160
  /\ TextRegion.x (Layout.description l) == W / 2
  /\ TextRegion.x (Layout.description l) == 160
  /\ ButtonRegion.x (Layout.cta l) == 160 - 60
  /\ ButtonRegion.x (Layout.cta l) == 100
  /\ ButtonRegion.x (Layout.cta l) + ButtonRegion.width (Layout.cta l) / 2 == W / 2
  /\ existsb (TextCalls.drawsAligned (textAlignment c) (hd EmptyString headlineLines)
                160 (padding c + 40)) tr = true
  /\ existsb (TextCalls.drawsAligned (textAlignment c) (hd EmptyString descriptionLines)
                160 (padding c + 100)) tr = true
  /\ existsb (Trace.rectAt (accentColor c) 100 (400 - padding c - 50) 120 40) tr = true
  /\ existsb (TextCalls.drawsAligned Canvas.AlignCenter label
                160 (400 - padding c - 50 + 20 + fontSize c / 3)) tr = true
  /\ Trace.textCallsAt 160 tr
  /\ (Trace.textCallsAligned Canvas.AlignCenter tr <-> textAlignment c = Canvas.AlignCenter).
Proof.
  intros W H l headlineLines descriptionLines label tr.
  assert (Hl : l = Layout.mk
      (TextRegion.mk (W / 2) (padding c + 40) (W - (padding c * 2)))
      (TextRegion.mk (W / 2) (padding c + 100) (W - (padding c * 2)))
      (ButtonRegion.mk (W / 2 - 60) (H - padding c - 50) 120 40)).
  { subst l. unfold calculateLayout. now rewrite Hlayout. }
  assert (Htr := updatePreview_ops measure c ad "mobile" s).
  cbv zeta in Htr. fold W H l headlineLines descriptionLines label tr in Htr.
  assert (Hy0 : forall y, Qeq_bool (Trace.lineY c y 0) y = true).
  { intros y. apply Qeq_bool_iff. unfold Trace.lineY, ofIndex. simpl inject_Z. ring. }
  assert (Hh1 : existsb (TextCalls.drawsAligned (textAlignment c)
                           (hd EmptyString headlineLines) 160 (padding c + 40))
      (Trace.textOps (Trace.stHeadline c W H) (TextRegion.x (Layout.headline l))
         (Trace.lineY c (TextRegion.y (Layout.headline l))) headlineLines 0) = true).
  { apply textOps_first; [apply wrapText_nonempty|].
    rewrite Hl. unfold TextCalls.drawsAligned, TextCalls.drawnAt, Trace.drawsText, Trace.textAt.
    cbn [Layout.headline TextRegion.x TextRegion.y Trace.stHeadline Trace.inState
      Canvas.textAlign].
    rewrite String.eqb_refl, Hy0, alignEqb_refl. reflexivity. }
  assert (Hd1 : existsb (TextCalls.drawsAligned (textAlignment c)
                           (hd EmptyString descriptionLines) 160 (padding c + 100))
      (Trace.textOps (Trace.stDescription c W H) (TextRegion.x (Layout.description l))
         (Trace.lineY c (TextRegion.y (Layout.description l))) descriptionLines 0) = true).
  { apply textOps_first; [apply wrapText_nonempty|].
    rewrite Hl. unfold TextCalls.drawsAligned, TextCalls.drawnAt, Trace.drawsText, Trace.textAt.
    cbn [Layout.description TextRegion.x TextRegion.y Trace.stDescription Trace.inState
      Canvas.textAlign].
    rewrite String.eqb_refl, Hy0, alignEqb_refl. reflexivity. }
  assert (Hb : Trace.rectAt (accentColor c) 100 (400 - padding c - 50) 120 40
      (Canvas.FillRect (Trace.stButton c W H) (ButtonRegion.x (Layout.cta l))
         (ButtonRegion.y (Layout.cta l)) (ButtonRegion.width (Layout.cta l))
         (ButtonRegion.height (Layout.cta l))) = true).
  { rewrite Hl. cbn [Trace.rectAt Trace.stButton Trace.inState Canvas.fillStyle Layout.cta
      ButtonRegion.x ButtonRegion.y ButtonRegion.width ButtonRegion.height].
    rewrite String.eqb_refl.
    assert (Hy : Qeq_bool (H - padding c - 50) (400 - padding c - 50) = true)
      by (apply Qeq_bool_iff; reflexivity).
    rewrite Hy. reflexivity. }
  assert (Hlab : TextCalls.drawsAligned Canvas.AlignCenter label
      160 (400 - padding c - 50 + 20 + fontSize c / 3)
      (Canvas.FillText (Trace.stLabel c W H) label
         (ButtonRegion.x (Layout.cta l) + ButtonRegion.width (Layout.cta l) / 2)
         (ButtonRegion.y (Layout.cta l) + ButtonRegion.height (Layout.cta l) / 2
          + fontSize c / 3)) = true).
  { rewrite Hl. unfold TextCalls.drawsAligned, TextCalls.drawnAt, Trace.drawsText, Trace.textAt.
    cbn [Layout.cta ButtonRegion.x ButtonRegion.y ButtonRegion.width ButtonRegion.height
      Trace.stLabel Trace.inState Canvas.textAlign TextCalls.alignEqb].
    rewrite String.eqb_refl.
    assert (Hy : Qeq_bool (H - padding c - 50 + 40 / 2 + fontSize c / 3)
                   (400 - padding c - 50 + 20 + fontSize c / 3) = true).
    { apply Qeq_bool_iff. change H with 400. halves. ring. }
    rewrite Hy. reflexivity. }
  assert (Hne : headlineLines <> []) by apply wrapText_nonempty.
  split; [reflexivity|]. split; [reflexivity|].
  do 7 (split; [rewrite Hl; cbn [Layout.headline Layout.description Layout.cta TextRegion.x
                  ButtonRegion.x ButtonRegion.width]; reflexivity|]).
  rewrite Htr. cbn [existsb]. rewrite !existsb_app. cbn [existsb].
  split; [rewrite Hh1; now rewrite !orb_true_r|].
  split; [rewrite Hd1; now rewrite !orb_true_r|].
  split; [rewrite Hb; now rewrite !orb_true_r|].
  split; [rewrite Hlab; now rewrite !orb_true_r|].
  split; [|split].
  - unfold Trace.textCallsAt. rewrite Hl.
    cbn [Layout.headline Layout.description Layout.cta TextRegion.x
      ButtonRegion.x ButtonRegion.width].
    constructor; [exact I|].
    repeat (apply Forall_app; split).
    + unfold Trace.overlayOps. destruct (negb _); repeat constructor.
    + apply textOps_Forall. reflexivity.
    + apply textOps_Forall. reflexivity.
    + repeat constructor; reflexivity.
  - intros Hall. unfold Trace.textCallsAligned in Hall.
    apply Forall_inv_tail in Hall. apply Forall_app in Hall. destruct Hall as [_ Hall].
    apply Forall_app in Hall. destruct Hall as [Hall _].
    destruct headlineLines as [|line rest]; [congruence|].
    apply Forall_inv in Hall. exact Hall.
  - intros Hal. unfold Trace.textCallsAligned. constructor; [exact I|].
    repeat (apply Forall_app; split).
    + unfold Trace.overlayOps. destruct (negb _); repeat constructor.
    + apply textOps_Forall. intros; exact Hal.
    + apply textOps_Forall. intros; exact Hal.
    + repeat constructor.
Qed.

Lemma centered_layout_on_mobile_witness :
  layout (Sample.withLayout Sample.initial "centered" 20) = "centered" /\
  TextRegion.x (Layout.headline
    (calculateLayout (Sample.withLayout Sample.initial "centered" 20) 320 400)) == 160 /\
  ButtonRegion.x (Layout.cta
    (calculateLayout (Sample.withLayout Sample.initial "centered" 20) 320 400)) == 100 /\
  existsb (TextCalls.drawsAligned Canvas.AlignLeft "Save Today" 160 60)
    (Canvas.ops (CanvasM.exec
       (updatePreview Sample.fixedPitch (Sample.withLayout Sample.initial "centered" 20)
          (Some Sample.shortCopy) "mobile")
       Sample.fresh)) = true.
Proof.
  assert (Hl : layout (Sample.withLayout Sample.initial "centered" 20) = "centered")
    by reflexivity.
  split; [exact Hl|].
  destruct (centered_layout_on_mobile Sample.fixedPitch
              (Sample.withLayout Sample.initial "centered" 20) Sample.shortCopy
              Sample.fresh Hl) as (_ & _ & _ & Hx & _ & _ & _ & Hb & _ & Hd & _).
  split; [exact Hx|]. split; [exact Hb|].
  exact Hd.
Defined.

(** C8, as written, fails: with the centered layout and the initial text
    alignment, left, the render on the mobile surface draws the headline
    at x = 160 with the alignment left, so the text starts at the middle of
    the surface instead of being centred on it. *)
Lemma centered_layout_text_not_centre_aligned :
  let c := Sample.withLayout Sample.initial "centered" 20 in
  let tr := Canvas.ops (CanvasM.exec
              (updatePreview Sample.fixedPitch c (Some Sample.shortCopy) "mobile")
              Sample.fresh) in
  layout c = "centered"
  /\ textAlignment c = Canvas.AlignLeft
  /\ existsb (TextCalls.drawsAligned Canvas.AlignLeft "Save Today" 160 60) tr = true
  /\ existsb (TextCalls.drawsAligned Canvas.AlignCenter "Save Today" 160 60) tr = false
  /\ ~ Trace.textCallsAligned Canvas.AlignCenter tr.
Proof.
  cbv zeta. split; [reflexivity|]. split; [reflexivity|].
  split; [vm_compute; reflexivity|]. split; [vm_compute; reflexivity|].
  intros Hall. apply allAligned_complete in Hall. vm_compute in Hall. discriminate Hall.
Qed.

(** C2, as the code has it.  With the standard layout and padding 20 on
    the 600x400 surface, whatever the other settings and the measurement
    backend, the layout anchors the headline at (20, 60), the description
    at (20, 120) and the button at (20, 330) with width 120 and height 40;
    the render draws the first headline line at (20, 60), the first
    description line at (20, 120) and the button rectangle, in the accent
    colour, over (20, 330, 120, 40). *)
Theorem standard_scenario_positions
    (measure : Canvas.Font -> string -> Q) (c : Customizations) (ad : Ad)
    (mode : string) (s : Canvas.State)
    (Hlayout : layout c = "standard") (Hpad : padding c == 20)
    (Hw : surfaceWidth mode = 600) (Hh : surfaceHeight mode = 400) :
  let l := calculateLayout c 600 400 in
  let headlineLines :=
    wrapText measure (Trace.stateWith (Trace.stHeadline c 600 400))
      (getContentVariation c TypeHeadline (AdContent.headline (content ad)))
      (TextRegion.maxWidth (Layout.headline l)) in
  let descriptionLines :=
    wrapText measure (Trace.stateWith (Trace.stDescription c 600 400))
      (getContentVariation c TypeDescription (AdContent.description (content ad)))
      (TextRegion.maxWidth (Layout.description l)) in
  let tr := Canvas.ops (CanvasM.exec (updatePreview measure c (Some ad) mode) s) in
  (TextRegion.x (Layout.headline l) == 20 /\ TextRegion.y (Layout.headline l) == 60)
  /\ (TextRegion.x (Layout.description l) == 20 /\ TextRegion.y (Layout.description l) == 120)
  /\ (ButtonRegion.x (Layout.cta l) == 20 /\ ButtonRegion.y (Layout.cta l) == 330 /\
      ButtonRegion.width (Layout.cta l) == 120 /\ ButtonRegion.height (Layout.cta l) == 40)
  /\ existsb (Trace.drawsText (hd EmptyString headlineLines) 20 60) tr = true
  /\ existsb (Trace.drawsText (hd EmptyString descriptionLines) 20 120) tr = true
  /\ existsb (Trace.rectAt (accentColor c) 20 330 120 40) tr = true.
Proof.
  intros l headlineLines descriptionLines tr.
  assert (Hl : l = Layout.mk
      (TextRegion.mk (padding c) (padding c + 40) (600 - (padding c * 2)))
      (TextRegion.mk (padding c) (padding c + 100) (600 - (padding c * 2)))
      (ButtonRegion.mk (padding c) (400 - padding c - 50) 120 40)).
  { subst l. unfold calculateLayout. now rewrite Hlayout. }
  assert (Htr := updatePreview_ops measure c ad mode s).
  cbv zeta in Htr. rewrite Hw, Hh in Htr.
  fold l headlineLines descriptionLines tr in Htr.
  assert (Hx : Qeq_bool (padding c) 20 = true) by now apply Qeq_bool_iff.
  assert (Hy0 : forall y y', y == y' -> Qeq_bool (Trace.lineY c y 0) y' = true).
  { intros y y' Hy. apply Qeq_bool_iff. unfold Trace.lineY, ofIndex.
    simpl inject_Z. rewrite Hy. ring. }
  split; [|split; [|split]].
  - rewrite Hl; simpl. split; [exact Hpad | rewrite Hpad; reflexivity].
  - rewrite Hl; simpl. split; [exact Hpad | rewrite Hpad; reflexivity].
  - rewrite Hl; simpl. repeat split; try reflexivity; [exact Hpad | rewrite Hpad; reflexivity].
  - rewrite Htr. cbn [existsb]. rewrite !existsb_app.
    assert (Hh1 : existsb (Trace.drawsText (hd EmptyString headlineLines) 20 60)
        (Trace.textOps (Trace.stHeadline c 600 400) (TextRegion.x (Layout.headline l))
           (Trace.lineY c (TextRegion.y (Layout.headline l))) headlineLines 0) = true).
    { apply textOps_first; [apply wrapText_nonempty|].
      rewrite Hl. cbn [Trace.drawsText Trace.textAt Layout.headline TextRegion.x TextRegion.y].
      rewrite String.eqb_refl, Hx, Hy0; [reflexivity | rewrite Hpad; reflexivity]. }
    assert (Hd1 : existsb (Trace.drawsText (hd EmptyString descriptionLines) 20 120)
        (Trace.textOps (Trace.stDescription c 600 400) (TextRegion.x (Layout.description l))
           (Trace.lineY c (TextRegion.y (Layout.description l))) descriptionLines 0) = true).
    { apply textOps_first; [apply wrapText_nonempty|].
      rewrite Hl. cbn [Trace.drawsText Trace.textAt Layout.description TextRegion.x TextRegion.y].
      rewrite String.eqb_refl, Hx, Hy0; [reflexivity | rewrite Hpad; reflexivity]. }
    assert (Hb : Trace.rectAt (accentColor c) 20 330 120 40
        (Canvas.FillRect (Trace.stButton c 600 400) (ButtonRegion.x (Layout.cta l))
           (ButtonRegion.y (Layout.cta l)) (ButtonRegion.width (Layout.cta l))
           (ButtonRegion.height (Layout.cta l))) = true).
    { rewrite Hl. cbn [Trace.rectAt Trace.stButton Trace.inState Canvas.fillStyle Layout.cta
        ButtonRegion.x ButtonRegion.y ButtonRegion.width ButtonRegion.height].
      rewrite String.eqb_refl, Hx.
      assert (Hy : Qeq_bool (400 - padding c - 50) 330 = true).
      { apply Qeq_bool_iff. rewrite Hpad. reflexivity. }
      rewrite Hy. reflexivity. }
    repeat split.
    + rewrite Hh1. now rewrite !orb_true_r.
    + rewrite Hd1. now rewrite !orb_true_r.
    + cbn [existsb]. rewrite Hb. now rewrite !orb_true_r.
Qed.

Lemma standard_scenario_positions_witness :
  layout Sample.initial = "standard" /\ padding Sample.initial == 20 /\
  Trace.scenarioAt 60 120 330
    (Canvas.ops (CanvasM.exec
       (updatePreview Sample.fixedPitch Sample.initial (Some Sample.shortCopy) "desktop")
       Sample.fresh)) = true.
Proof.
  assert (Hl : layout Sample.initial = "standard") by reflexivity.
  assert (Hp : padding Sample.initial == 20) by reflexivity.
  split; [exact Hl|]. split; [exact Hp|].
  destruct (standard_scenario_positions Sample.fixedPitch Sample.initial Sample.shortCopy
              "desktop" Sample.fresh Hl Hp eq_refl eq_refl) as (_ & _ & _ & Hh & Hd & Hb).
  unfold Trace.scenarioAt.
  apply andb_true_iff. split; [apply andb_true_iff; split|].
  - exact Hh.
  - exact Hd.
  - exact Hb.
Defined.

(** C2, as written, fails: in the scenario no text is drawn at (20, 44) or
    at (20, 100), and no rectangle is filled over (20, 340, 120, 40); the
    layout puts the headline at height 60, not 44. *)
Lemma standard_scenario_as_written_fails :
  let tr := Canvas.ops (CanvasM.exec
       (updatePreview Sample.fixedPitch Sample.initial (Some Sample.shortCopy) "desktop")
       Sample.fresh) in
  Trace.scenarioAt 44 100 340 tr = false
  /\ existsb (Trace.textAt 20 44) tr = false
  /\ existsb (Trace.textAt 20 100) tr = false
  /\ existsb (Trace.rectAt "#007bff" 20 340 120 40) tr = false
  /\ ~ TextRegion.y (Layout.headline (calculateLayout Sample.initial 600 400)) == 44
  /\ ~ TextRegion.y (Layout.description (calculateLayout Sample.initial 600 400)) == 100
  /\ ~ ButtonRegion.y (Layout.cta (calculateLayout Sample.initial 600 400)) == 340.
Proof.
  repeat split; try (vm_compute; reflexivity); intro H; vm_compute in H; discriminate H.
Qed.

Lemma wrapText_lines_fit_witness :
  0 < 70 /\
  wrapText Sample.fixedPitch Sample.fresh "hello big wide world of advertisements" 70
    = ["hello big"; "wide world"; "of"; "advertisements"] /\
  Forall (fun line =>
            measureText Sample.fixedPitch Sample.fresh line <= 70 \/
            (In line (JS.split "hello big wide world of advertisements") /\
             70 < measureText Sample.fixedPitch Sample.fresh line))
         (wrapText Sample.fixedPitch Sample.fresh "hello big wide world of advertisements" 70).
Proof.
  assert (Hpos : 0 < 70) by reflexivity.
  split; [exact Hpos|]. split; [vm_compute; reflexivity|].
  exact (proj1 (wrapText_lines_fit Sample.fixedPitch Sample.fresh
                  "hello big wide world of advertisements" 70 Hpos)).
Defined.

(** * Further properties of the code *)

(** ** The render of the customization screen *)

Section RenderMore.
Import Canvas CanvasM Trace.
Variable measure : Font -> string -> Q.

(** The context that [updatePreview] leaves behind. *)
Lemma updatePreview_final (c : Customizations) (ad : Ad) (mode : string) (s : State) :
  let W := surfaceWidth mode in
  let H := surfaceHeight mode in
  let s' := exec (updatePreview measure c (Some ad) mode) s in
  width s' = W /\ height s' = H /\ saved s' = [] /\ clipRegion (cur s') = [] /\
  (JS.gt0 (borderRadius c) = true -> cur s' = stClear c) /\
  (JS.gt0 (borderRadius c) = false -> JS.gt0 (shadow c) = true ->
     shadowBlur (cur s') = shadow c * 2 /\ shadowOffsetX (cur s') = shadow c /\
     shadowOffsetY (cur s') = shadow c /\ shadowColor (cur s') = "rgba(0, 0, 0, 0.1)").
Proof.
  intros W H s'. subst s'.
  unfold exec, updatePreview, stClear, inState.
  change (Dimensions.width (getCanvasDimensions mode)) with W.
  change (Dimensions.height (getCanvasDimensions mode)) with H.
  clearbody W H.
  destruct (JS.gt0 (borderRadius c)), (String.eqb (accentColor c) (backgroundColor c)),
    (JS.gt0 (shadow c)), (String.eqb (animationType c) "none").
  all: run_canvas; rewrite drawText_run; run_canvas; rewrite drawText_run; run_canvas.
  all: cbv [drawButton applyAnimation restore setShadowColor setShadowBlur setShadowOffsetX
            setShadowOffsetY]; run_canvas.
  all: cbv [snd]; repeat split; try reflexivity; intros; try discriminate; repeat split;
    reflexivity.
Qed.


(** X1.  The shadow and animation settings reach no drawing call: the calls
    of a render are the same for every value of [shadow] and
    [animationType], and each call is issued with the default (absent)
    shadow, because the shadow is configured only after the last call. *)
Theorem updatePreview_ignores_shadow
    (c : Customizations) (ad : Ad) (mode : string) (s s' : State)
    (sh : Q) (anim : string) :
  ops (exec (updatePreview measure (withEffects c sh anim) (Some ad) mode) s') =
  ops (exec (updatePreview measure c (Some ad) mode) s)
  /\ Forall (fun o => shadowColor (opState o) = shadowColor defaultDrawState /\
                      shadowBlur (opState o) = 0 /\
                      shadowOffsetX (opState o) = 0 /\ shadowOffsetY (opState o) = 0)
       (ops (exec (updatePreview measure c (Some ad) mode) s)).
Proof.
  split.
  - rewrite !updatePreview_ops. reflexivity.
  - rewrite updatePreview_ops. constructor; [repeat split|].
    repeat (apply Forall_app; split).
    + unfold overlayOps. destruct (negb _); repeat constructor.
    + apply textOps_Forall. intros. repeat split.
    + apply textOps_Forall. intros. repeat split.
    + repeat constructor.
Qed.

(** X2.  A render leaves the context balanced: nothing stays on the save
    stack and the clip is the whole surface again, whatever the border
    radius.  With a positive border radius the final [restore] also drops
    the shadow settings; without one they stay in the context. *)
Theorem updatePreview_restores_context
    (c : Customizations) (ad : Ad) (mode : string) (s : State) :
  let s' := exec (updatePreview measure c (Some ad) mode) s in
  saved s' = [] /\ clipRegion (cur s') = []
  /\ width s' = surfaceWidth mode /\ height s' = surfaceHeight mode
  /\ (0 < borderRadius c -> shadowBlur (cur s') = 0 /\ shadowOffsetX (cur s') = 0 /\
                             shadowOffsetY (cur s') = 0)
  /\ (~ 0 < borderRadius c -> 0 < shadow c ->
        shadowBlur (cur s') = shadow c * 2 /\ shadowOffsetX (cur s') = shadow c /\
        shadowOffsetY (cur s') = shadow c).
Proof.
  intros s'. subst s'.
  destruct (updatePreview_final c ad mode s) as (Hw & Hh & Hs & Hc & Hr & Hsh).
  split; [exact Hs|]. split; [exact Hc|]. split; [exact Hw|]. split; [exact Hh|]. split.
  - intros Hpos. apply ltb_lt in Hpos. rewrite (Hr Hpos). repeat split.
  - intros Hnot Hpos.
    assert (Hb : JS.gt0 (borderRadius c) = false).
    { unfold JS.gt0. destruct (JS.ltb 0 (borderRadius c)) eqn:E; [|reflexivity].
      apply ltb_lt in E. contradiction. }
    apply ltb_lt in Hpos. destruct (Hsh Hb Hpos) as (H1 & H2 & H3 & _). auto.
Qed.

Lemma textOps_length (d : DrawState) (x : Q) (yOf : nat -> Q) (lines : list string) (i : nat) :
  List.length (textOps d x yOf lines i) = List.length lines.
Proof. revert i. induction lines as [|l r IH]; intros i; simpl; [reflexivity | now rewrite IH]. Qed.

Lemma textOps_nth (d : DrawState) (x : Q) (yOf : nat -> Q) (lines : list string)
    (i k : nat) (line : string) :
  nth_error lines k = Some line ->
  nth_error (textOps d x yOf lines i) k = Some (FillText d line x (yOf (i + k)%nat)).
Proof.
  revert i k. induction lines as [|l r IH]; intros i k Hk.
  - destruct k; discriminate.
  - destruct k as [|k]; simpl in *.
    + injection Hk as ->. now rewrite Nat.add_0_r.
    + rewrite (IH (S i) k Hk). now rewrite Nat.add_succ_r.
Qed.

(** X3.  [drawText] issues one [fillText] per wrapped line and at least
    one, the empty text included (one call with the empty string); line
    number [k] is drawn at [(x, y + k * (fontSize + 5))] in the state the
    context was in, and the context itself is left as it was. *)
Theorem drawText_one_call_per_line
    (c : Customizations) (text : string) (x y maxWidth : Q) (s : State) :
  let lines := wrapText measure s text maxWidth in
  let s' := exec (drawText measure c text x y maxWidth) s in
  exists new,
    ops s' = (ops s ++ new)%list
    /\ List.length new = List.length lines /\ (1 <= List.length new)%nat
    /\ (forall k line, nth_error lines k = Some line ->
          nth_error new k =
          Some (FillText (cur s) line x (y + (inject_Z (Z.of_nat k) * (fontSize c + 5)))))
    /\ (text = EmptyString -> exists y0, new = [FillText (cur s) EmptyString x y0] /\ y0 == y)
    /\ cur s' = cur s /\ saved s' = saved s /\ path s' = path s
    /\ width s' = width s /\ height s' = height s.
Proof.
  intros lines s'. subst s'. unfold exec. rewrite drawText_run.
  rewrite (wrapText_font measure (stateWith (cur s)) s) by reflexivity.
  fold lines. cbn [snd ops cur saved path width height].
  exists (textOps (cur s) x (lineY c y) lines 0).
  split; [reflexivity|]. split; [apply textOps_length|]. split.
  - rewrite textOps_length. subst lines.
    pose proof (wrapText_nonempty measure s text maxWidth) as Hne.
    destruct (wrapText measure s text maxWidth); [congruence | simpl; lia].
  - split; [|split; [|repeat split]].
    + intros k line Hk. rewrite (textOps_nth _ _ _ _ 0 k line Hk). reflexivity.
    + intros ->. subst lines. exists (lineY c y 0). split; [reflexivity|].
      unfold lineY, ofIndex. simpl inject_Z. ring.
Qed.

End RenderMore.

(** X4.  In every layout, for every surface and padding, the description
    region has the abscissa and the width of the headline region and lies
    60 below it; so with a font size below 25 the baselines of the first
    three headline lines are strictly above the first description
    baseline. *)
Theorem headline_lines_above_description
    (c : Customizations) (W H : Q) (Hfont : fontSize c < 25) :
  let l := calculateLayout c W H in
  TextRegion.x (Layout.description l) = TextRegion.x (Layout.headline l)
  /\ TextRegion.maxWidth (Layout.description l) = TextRegion.maxWidth (Layout.headline l)
  /\ TextRegion.y (Layout.description l) == TextRegion.y (Layout.headline l) + 60
  /\ (forall k, (k < 3)%nat ->
        Trace.lineY c (TextRegion.y (Layout.headline l)) k < TextRegion.y (Layout.description l)).
Proof.
  intros l.
  assert (Hgap : TextRegion.y (Layout.description l) == TextRegion.y (Layout.headline l) + 60).
  { subst l. unfold calculateLayout.
    destruct (String.eqb (layout c) "centered"); [|destruct (String.eqb (layout c) "split")];
      simpl; ring. }
  repeat split.
  - subst l. unfold calculateLayout.
    destruct (String.eqb (layout c) "centered"); [|destruct (String.eqb (layout c) "split")];
      reflexivity.
  - subst l. unfold calculateLayout.
    destruct (String.eqb (layout c) "centered"); [|destruct (String.eqb (layout c) "split")];
      reflexivity.
  - exact Hgap.
  - intros k Hk. rewrite Hgap. unfold Trace.lineY, ofIndex.
    assert (Hc : k = 0%nat \/ k = 1%nat \/ k = 2%nat) by lia.
    destruct Hc as [-> | [-> | ->]]; unfold inject_Z; simpl Z.of_nat; lra.
Qed.

Lemma headline_lines_above_description_witness :
  fontSize Sample.initial < 25 /\
  Trace.lineY Sample.initial (TextRegion.y (Layout.headline (calculateLayout Sample.initial 600 400))) 2
    < TextRegion.y (Layout.description (calculateLayout Sample.initial 600 400)).
Proof.
  assert (Hf : fontSize Sample.initial < 25) by reflexivity.
  split; [exact Hf|].
  destruct (headline_lines_above_description Sample.initial 600 400 Hf) as (_ & _ & _ & Hk).
  apply Hk. lia.
Defined.

(** X5.  For a radius between 0 and both sides of the rectangle, every end
    point and control point of the path of [roundRect] lies in the
    rectangle; the path replaces whatever path was being built, and ends
    where it starts before it is closed. *)
Theorem roundRect_stays_in_rectangle
    (x y w h r : Q) (s : Canvas.State) (Hr : 0 <= r) (Hw : r <= w) (Hh : r <= h) :
  let p := Canvas.path (CanvasM.exec (roundRect x y w h r) s) in
  Forall (Geometry.inRect x y w h) (Geometry.pathPoints p)
  /\ hd_error p = Some (Canvas.MoveTo (x + r) y)
  /\ (exists before cpx cpy,
        p = (before ++ [Canvas.QuadraticCurveTo cpx cpy (x + r) y; Canvas.ClosePath])%list)
  /\ Canvas.ops (CanvasM.exec (roundRect x y w h r) s) = Canvas.ops s
  /\ Canvas.cur (CanvasM.exec (roundRect x y w h r) s) = Canvas.cur s.
Proof.
  intros p. subst p. unfold CanvasM.exec. rewrite roundRect_run. cbn [snd Canvas.path Canvas.ops Canvas.cur].
  split; [|split; [reflexivity|split; [|split; reflexivity]]].
  - unfold Trace.roundedPath, Geometry.pathPoints, Geometry.inRect. cbn [flat_map Geometry.pointsOf app].
    repeat constructor; cbn [fst snd]; lra.
  - eexists _, x, y. unfold Trace.roundedPath.
    change [Canvas.MoveTo (x + r) y; Canvas.LineTo (x + w - r) y;
            Canvas.QuadraticCurveTo (x + w) y (x + w) (y + r); Canvas.LineTo (x + w) (y + h - r);
            Canvas.QuadraticCurveTo (x + w) (y + h) (x + w - r) (y + h); Canvas.LineTo (x + r) (y + h);
            Canvas.QuadraticCurveTo x (y + h) x (y + h - r); Canvas.LineTo x (y + r);
            Canvas.QuadraticCurveTo x y (x + r) y; Canvas.ClosePath]
      with ([Canvas.MoveTo (x + r) y; Canvas.LineTo (x + w - r) y;
            Canvas.QuadraticCurveTo (x + w) y (x + w) (y + r); Canvas.LineTo (x + w) (y + h - r);
            Canvas.QuadraticCurveTo (x + w) (y + h) (x + w - r) (y + h); Canvas.LineTo (x + r) (y + h);
            Canvas.QuadraticCurveTo x (y + h) x (y + h - r); Canvas.LineTo x (y + r)] ++
            [Canvas.QuadraticCurveTo x y (x + r) y; Canvas.ClosePath])%list.
    reflexivity.
Qed.

Lemma roundRect_stays_in_rectangle_witness :
  0 <= 8 /\ 8 <= 600 /\ 8 <= 400 /\
  Forall (Geometry.inRect 0 0 600 400)
    (Geometry.pathPoints (Canvas.path (CanvasM.exec (roundRect 0 0 600 400 8) Sample.fresh))).
Proof.
  assert (H0 : 0 <= 8) by (intro H; discriminate H).
  assert (H1 : 8 <= 600) by (intro H; discriminate H).
  assert (H2 : 8 <= 400) by (intro H; discriminate H).
  split; [exact H0|]. split; [exact H1|]. split; [exact H2|].
  exact (proj1 (roundRect_stays_in_rectangle 0 0 600 400 8 Sample.fresh H0 H1 H2)).
Defined.

(** ** The preview of the generator screen *)

Section GeneratorPreview.
Import Canvas CanvasM.
Variable measure : Font -> string -> Q.
Variable c : Generator.Customizations.
Variable variation : Ad.

Lemma updateCanvasPreview_run (s : State) :
  Generator.updateCanvasPreview measure c (Some variation) s =
  (tt, mkState (width s) (height s)
         (mkDrawState (Color "#ffffff")
            (mkFont false (Generator.fontSize c) (Generator.fontFamily c))
            (textAlign (cur s)) (shadowColor (cur s)) (shadowBlur (cur s))
            (shadowOffsetX (cur s)) (shadowOffsetY (cur s)) (clipRegion (cur s)))
         (path s) (saved s)
         (ops s ++ Generator.previewCalls measure c variation s)).
Proof.
  destruct s as [w h [f fn al sc sb sx sy cl] p sv o].
  unfold Generator.updateCanvasPreview, Generator.previewCalls.
  set (each := fun (line : string) (index : nat) => fillText line 20 (80 + (ofIndex index * 25))).
  run_canvas. subst each. rewrite forEach_fillText. run_canvas.
  match goal with
  | |- context [wrapText measure ?a ?t ?m] =>
      rewrite (wrapText_font measure a (Trace.stateWith (cur a)) t m) by reflexivity
  end.
  rewrite <- !app_assoc. reflexivity.
Qed.

Lemma previewCalls_again (s : State) :
  tl (Generator.previewCalls measure c variation
        (exec (Generator.updateCanvasPreview measure c (Some variation)) s)) =
  tl (Generator.previewCalls measure c variation s)
  /\ hd_error (Generator.previewCalls measure c variation
        (exec (Generator.updateCanvasPreview measure c (Some variation)) s)) =
     Some (FillRect
             (mkDrawState (Color (Generator.backgroundColor c))
                (mkFont false (Generator.fontSize c) (Generator.fontFamily c))
                (textAlign (cur s)) (shadowColor (cur s)) (shadowBlur (cur s))
                (shadowOffsetX (cur s)) (shadowOffsetY (cur s)) (clipRegion (cur s)))
             0 0 (width s) (height s)).
Proof.
  unfold exec. rewrite updateCanvasPreview_run. split; reflexivity.
Qed.

End GeneratorPreview.

(** X6.  The generator preview draws the headline whole on one line at
    (20, 40), never wrapped, and the description in lines 25 apart from
    (20, 80); a description line of several words ends left of the right
    margin at [width - 20].  The button rectangle is (20, height - 60, 120,
    40) and its label starts at (30, height - 35). *)
Theorem generator_preview_layout
    (measure : Canvas.Font -> string -> Q) (c : Generator.Customizations)
    (variation : Ad) (s : Canvas.State) :
  let body := Canvas.mkFont false (Generator.fontSize c) (Generator.fontFamily c) in
  let st f fn := Canvas.mkDrawState f fn (Canvas.textAlign (Canvas.cur s))
      (Canvas.shadowColor (Canvas.cur s)) (Canvas.shadowBlur (Canvas.cur s))
      (Canvas.shadowOffsetX (Canvas.cur s)) (Canvas.shadowOffsetY (Canvas.cur s))
      (Canvas.clipRegion (Canvas.cur s)) in
  let textState := st (Canvas.Color (Generator.textColor c)) body in
  let lines := wrapText measure (Trace.stateWith textState)
                 (AdContent.description (content variation)) (Canvas.width s - 40) in
  let new := Generator.previewCalls measure c variation s in
  let n := List.length lines in
  Canvas.ops (CanvasM.exec (Generator.updateCanvasPreview measure c (Some variation)) s)
    = (Canvas.ops s ++ new)%list
  /\ nth_error new 1 =
       Some (Canvas.FillText
               (st (Canvas.Color (Generator.textColor c))
                   (Canvas.mkFont true (Generator.fontSize c + 4) (Generator.fontFamily c)))
               (AdContent.headline (content variation)) 20 40)
  /\ (forall k line, nth_error lines k = Some line ->
        nth_error new (2 + k) =
          Some (Canvas.FillText textState line 20 (80 + (inject_Z (Z.of_nat k) * 25)))
        /\ (In line (JS.split (AdContent.description (content variation))) \/
            20 + measure body line < Canvas.width s - 20))
  /\ nth_error new (2 + n) =
       Some (Canvas.FillRect (st (Canvas.Color (Generator.accentColor c)) body)
               20 (Canvas.height s - 60) 120 40)
  /\ nth_error new (3 + n) =
       Some (Canvas.FillText (st (Canvas.Color "#ffffff") body)
               (AdContent.callToAction (content variation)) 30 (Canvas.height s - 35))
  /\ List.length new = (4 + n)%nat.
Proof.
  intros body st textState lines new n.
  split; [unfold CanvasM.exec; now rewrite updateCanvasPreview_run|].
  split; [reflexivity|].
  assert (Hnew : new =
    ([Canvas.FillRect (st (Canvas.Color (Generator.backgroundColor c))
         (Canvas.font (Canvas.cur s))) 0 0 (Canvas.width s) (Canvas.height s);
      Canvas.FillText (st (Canvas.Color (Generator.textColor c))
         (Canvas.mkFont true (Generator.fontSize c + 4) (Generator.fontFamily c)))
         (AdContent.headline (content variation)) 20 40] ++
     Trace.textOps textState 20 (fun index => 80 + (ofIndex index * 25)) lines 0 ++
     [Canvas.FillRect (st (Canvas.Color (Generator.accentColor c)) body)
         20 (Canvas.height s - 60) 120 40;
      Canvas.FillText (st (Canvas.Color "#ffffff") body)
         (AdContent.callToAction (content variation)) 30 (Canvas.height s - 35)])%list)
    by reflexivity.
  assert (Hlen : List.length (Trace.textOps textState 20
                    (fun index => 80 + (ofIndex index * 25)) lines 0) = n)
    by apply textOps_length.
  assert (Hskip : forall (a b : Canvas.DrawOp) L m,
             nth_error (a :: b :: L) (S (S m)) = nth_error L m) by reflexivity.
  split; [|split; [|split]].
  - intros k line Hk. split.
    + rewrite Hnew. change (2 + k)%nat with (S (S k)). cbn [app]. rewrite Hskip.
      rewrite nth_error_app1 by (rewrite Hlen; apply nth_error_Some; congruence).
      rewrite (textOps_nth _ _ _ _ 0 k line Hk). reflexivity.
    + assert (Hall : Forall (fun l =>
                 In l (JS.split (AdContent.description (content variation))) \/
                 20 + measure body l < Canvas.width s - 20) lines).
      { subst lines.
        destruct (wrapText_unfold measure (Trace.stateWith textState)
                    (AdContent.description (content variation)) (Canvas.width s - 40))
          as (w0 & rest & Hs & ->).
        rewrite Hs. apply wrapLoop_fit.
        - intros l Hl. right. unfold measureText in Hl. cbn in Hl. fold body in Hl. lra.
        - constructor.
        - left. now left.
        - apply Forall_forall. intros l Hl. left. now right. }
      rewrite Forall_forall in Hall. apply Hall. eapply nth_error_In; eauto.
  - rewrite Hnew. change (2 + n)%nat with (S (S n)). cbn [app]. rewrite Hskip.
    rewrite nth_error_app2 by (rewrite Hlen; lia).
    rewrite Hlen, Nat.sub_diag. reflexivity.
  - rewrite Hnew. change (3 + n)%nat with (S (S (S n))). cbn [app]. rewrite Hskip.
    rewrite nth_error_app2 by (rewrite Hlen; lia).
    rewrite Hlen. replace (S n - n)%nat with 1%nat by lia. reflexivity.
  - rewrite Hnew. cbn [app List.length]. rewrite length_app, Hlen. simpl. lia.
Qed.

(** X7.  The generator preview does not reset the canvas: a run adds its
    calls after those already made, and a second run repeats the calls of
    the first, the text and button calls exactly and the background fill
    with the same colour and rectangle. *)
Theorem generator_preview_repeats
    (measure : Canvas.Font -> string -> Q) (c : Generator.Customizations)
    (variation : Ad) (s : Canvas.State) :
  let run := CanvasM.exec (Generator.updateCanvasPreview measure c (Some variation)) in
  exists first second,
    Canvas.ops (run s) = (Canvas.ops s ++ first)%list
    /\ Canvas.ops (run (run s)) = (Canvas.ops s ++ first ++ second)%list
    /\ tl second = tl first
    /\ (exists d1 d2,
          hd_error first = Some (Canvas.FillRect d1 0 0 (Canvas.width s) (Canvas.height s))
          /\ hd_error second = Some (Canvas.FillRect d2 0 0 (Canvas.width s) (Canvas.height s))
          /\ Canvas.fillStyle d1 = Canvas.Color (Generator.backgroundColor c)
          /\ Canvas.fillStyle d2 = Canvas.Color (Generator.backgroundColor c)
          /\ Canvas.clipRegion d1 = Canvas.clipRegion d2)
    /\ Canvas.width (run s) = Canvas.width s /\ Canvas.height (run s) = Canvas.height s.
Proof.
  intros run.
  exists (Generator.previewCalls measure c variation s),
         (Generator.previewCalls measure c variation (run s)).
  destruct (previewCalls_again measure c variation s) as (Htl & Hhd).
  split; [subst run; unfold CanvasM.exec; now rewrite updateCanvasPreview_run|].
  split.
  - subst run. unfold CanvasM.exec at 1. rewrite updateCanvasPreview_run.
    cbn [snd Canvas.ops]. unfold CanvasM.exec at 1. rewrite updateCanvasPreview_run.
    cbn [snd Canvas.ops]. now rewrite app_assoc.
  - split; [exact Htl|]. split.
    + eexists _, _. split; [reflexivity|]. split; [exact Hhd|]. repeat split.
    + subst run. unfold CanvasM.exec. rewrite updateCanvasPreview_run. split; reflexivity.
Qed.

(** ** Automatic optimisation *)

Lemma JSMath_min_le_l (a b : Q) : JSMath.min a b <= a.
Proof.
  unfold JSMath.min. destruct (JS.ltb b a) eqn:E.
  - apply ltb_lt in E. now apply Qlt_le_weak.
  - apply Qle_refl.
Qed.

Lemma JSMath_min_le_r (a b : Q) : JSMath.min a b <= b.
Proof.
  unfold JSMath.min. destruct (JS.ltb b a) eqn:E.
  - apply Qle_refl.
  - now apply ltb_ge in E.
Qed.

Lemma JSMath_min_glb (a b x : Q) : x <= a -> x <= b -> x <= JSMath.min a b.
Proof. intros Ha Hb. unfold JSMath.min. now destruct (JS.ltb b a). Qed.

Lemma JSMath_max_ge_l (a b : Q) : a <= JSMath.max a b.
Proof.
  unfold JSMath.max. destruct (JS.ltb a b) eqn:E.
  - apply ltb_lt in E. now apply Qlt_le_weak.
  - apply Qle_refl.
Qed.

Lemma JSMath_max_ge_r (a b : Q) : b <= JSMath.max a b.
Proof.
  unfold JSMath.max. destruct (JS.ltb a b) eqn:E.
  - apply Qle_refl.
  - now apply ltb_ge in E.
Qed.

Lemma JSMath_max_lub (a b x : Q) : a <= x -> b <= x -> JSMath.max a b <= x.
Proof. intros Ha Hb. unfold JSMath.max. now destruct (JS.ltb a b). Qed.

(** X8.  A run of the automatic optimisation, for draws of [Math.random()]
    in [0, 1), by a closure that saw an ad, no run in progress and the
    score [seen]: the font size ends between 14 and 20, and within 1 of
    the current size when that was already between 14 and 20; the score
    ends at most 100, at most 5 above [seen] and, when [seen] was at most
    100, not below it, whatever the current score is; no other setting
    changes.  A closure that saw no ad, or a run in progress, changes
    nothing. *)
Theorem performAutoOptimization_bounds
    (ad : Ad) (seen r1 r2 : Q) (now : Optimizer.Screen)
    (Hr1 : 0 <= r1 /\ r1 < 1) (Hr2 : 0 <= r2 /\ r2 < 1) :
  let st' := Optimizer.performAutoOptimization (Some ad) false seen r1 r2 now in
  let old := Optimizer.customizations now in
  let new := Optimizer.customizations st' in
  (14 <= fontSize new /\ fontSize new <= 20)
  /\ (14 <= fontSize old -> fontSize old <= 20 ->
        fontSize old - 1 <= fontSize new /\ fontSize new <= fontSize old + 1)
  /\ Optimizer.optimizationScore st' <= 100
  /\ Optimizer.optimizationScore st' <= seen + 5
  /\ (seen <= 100 -> seen <= Optimizer.optimizationScore st')
  /\ (forall other,
        Optimizer.optimizationScore
          (Optimizer.performAutoOptimization (Some ad) false seen r1 r2 other)
        = Optimizer.optimizationScore st')
  /\ new = mkCustomizations (backgroundColor old) (textColor old) (accentColor old)
         (fontSize new) (fontFamily old) (borderRadius old) (shadow old) (layout old)
         (textAlignment old) (padding old) (animationType old) (headlineVariation old)
         (descriptionVariation old) (ctaVariation old)
  /\ Optimizer.isOptimizing st' = false
  /\ (forall busy score, Optimizer.performAutoOptimization None busy score r1 r2 now = now)
  /\ (forall score, Optimizer.performAutoOptimization (Some ad) true score r1 r2 now = now).
Proof.
  intros st' old new.
  destruct Hr1 as [Hr1a Hr1b]. destruct Hr2 as [Hr2a Hr2b].
  assert (Hnew : fontSize new = JSMath.max 14 (JSMath.min 20 (fontSize old + (r2 - (1 # 2)) * 2)))
    by reflexivity.
  assert (Hscore : Optimizer.optimizationScore st' = JSMath.min 100 (seen + r1 * 5))
    by reflexivity.
  split; [|split; [|split; [|split; [|split; [|split; [|split; [|split; [|split]]]]]]]].
  - rewrite Hnew. split; [apply JSMath_max_ge_l|].
    apply JSMath_max_lub; [lra | apply JSMath_min_le_l].
  - intros Hlo Hhi. rewrite Hnew. split.
    + eapply Qle_trans; [|apply JSMath_max_ge_r]. apply JSMath_min_glb; lra.
    + apply JSMath_max_lub; [lra|].
      eapply Qle_trans; [apply JSMath_min_le_r|]. lra.
  - rewrite Hscore. apply JSMath_min_le_l.
  - rewrite Hscore. eapply Qle_trans; [apply JSMath_min_le_r|]. lra.
  - intros Hold. rewrite Hscore. apply JSMath_min_glb; lra.
  - reflexivity.
  - reflexivity.
  - reflexivity.
  - reflexivity.
  - reflexivity.
Qed.

Lemma performAutoOptimization_bounds_witness :
  (0 <= 9 # 10 /\ 9 # 10 < 1) /\ (0 <= 0 /\ 0 < 1) /\
  14 <= fontSize (Optimizer.customizations
           (Optimizer.performAutoOptimization (Some Sample.shortCopy) false 85 (9 # 10) 0
              (Optimizer.mkScreen Sample.initial 85 false))) /\
  Optimizer.optimizationScore
    (Optimizer.performAutoOptimization (Some Sample.shortCopy) false 85 (9 # 10) 0
       (Optimizer.mkScreen Sample.initial 85 false)) <= 100.
Proof.
  assert (H1 : 0 <= 9 # 10 /\ 9 # 10 < 1) by (split; [intro H; discriminate H | reflexivity]).
  assert (H2 : 0 <= 0 /\ 0 < 1) by (split; [intro H; discriminate H | reflexivity]).
  split; [exact H1|]. split; [exact H2|].
  destruct (performAutoOptimization_bounds Sample.shortCopy 85 (9 # 10) 0
              (Optimizer.mkScreen Sample.initial 85 false) H1 H2)
    as ((Hlo & _) & _ & Hs & _).
  split; [exact Hlo | exact Hs].
Defined.

(** ** Age groups and score colours *)

(** X9.  [getAgeGroup] is monotone: an older age never falls in a younger
    group.  The groups are exactly the ranges below 25 (young adults), from
    25 to below 35 (millennials), from 35 to below 50 (professionals), from
    50 to below 65 (experienced professionals) and from 65 on (seniors):
    they change at 25, 35, 50 and 65 and nowhere else, each bound belonging
    to the older group. *)
Theorem getAgeGroup_monotone (a b : Q) (Hab : a <= b) :
  (AdStore.groupRank (AdStore.getAgeGroup a) <= AdStore.groupRank (AdStore.getAgeGroup b))%nat
  /\ (b < 25 -> AdStore.getAgeGroup a = "young adults")
  /\ (65 <= a -> AdStore.getAgeGroup b = "seniors")
  /\ AdStore.getAgeGroup 25 = "millennials" /\ AdStore.getAgeGroup 35 = "professionals"
  /\ AdStore.getAgeGroup 50 = "experienced professionals"
  /\ AdStore.getAgeGroup 65 = "seniors"
  /\ (AdStore.getAgeGroup a = "young adults" <-> a < 25)
  /\ (AdStore.getAgeGroup a = "millennials" <-> 25 <= a /\ a < 35)
  /\ (AdStore.getAgeGroup a = "professionals" <-> 35 <= a /\ a < 50)
  /\ (AdStore.getAgeGroup a = "experienced professionals" <-> 50 <= a /\ a < 65)
  /\ (AdStore.getAgeGroup a = "seniors" <-> 65 <= a)
  /\ ((AdStore.groupRank (AdStore.getAgeGroup a)
         < AdStore.groupRank (AdStore.getAgeGroup b))%nat
        <-> exists t : Q, In t [25; 35; 50; 65] /\ a < t /\ t <= b).
Proof.
  unfold AdStore.getAgeGroup.
  split; [|split; [|split; [|split; [|split; [|split; [|split]]]]]]; try reflexivity.
  - destruct (JS.ltb a 25) eqn:A1; [|destruct (JS.ltb a 35) eqn:A2;
      [|destruct (JS.ltb a 50) eqn:A3; [|destruct (JS.ltb a 65) eqn:A4]]];
    (destruct (JS.ltb b 25) eqn:B1; [|destruct (JS.ltb b 35) eqn:B2;
      [|destruct (JS.ltb b 50) eqn:B3; [|destruct (JS.ltb b 65) eqn:B4]]]);
    try (cbn; lia);
    repeat match goal with
           | H : JS.ltb _ _ = true |- _ => apply ltb_lt in H
           | H : JS.ltb _ _ = false |- _ => apply ltb_ge in H
           end; exfalso; lra.
  - intros Hb. assert (Ha : JS.ltb a 25 = true) by (apply ltb_lt; lra). now rewrite Ha.
  - intros Ha.
    assert (H1 : JS.ltb b 25 = false) by (apply ltb_ge; lra).
    assert (H2 : JS.ltb b 35 = false) by (apply ltb_ge; lra).
    assert (H3 : JS.ltb b 50 = false) by (apply ltb_ge; lra).
    assert (H4 : JS.ltb b 65 = false) by (apply ltb_ge; lra).
    now rewrite H1, H2, H3, H4.
  - destruct (JS.ltb a 25) eqn:A1; [|destruct (JS.ltb a 35) eqn:A2;
      [|destruct (JS.ltb a 50) eqn:A3; [|destruct (JS.ltb a 65) eqn:A4]]];
    repeat match goal with
           | H : JS.ltb _ _ = true |- _ => apply ltb_lt in H
           | H : JS.ltb _ _ = false |- _ => apply ltb_ge in H
           end;
    (split; [|split; [|split; [|split; [|split]]]]);
    try (split; [intros E; try discriminate E; try split; lra
                | intros E; try reflexivity; exfalso; lra]).
    all: (destruct (JS.ltb b 25) eqn:B1; [|destruct (JS.ltb b 35) eqn:B2;
      [|destruct (JS.ltb b 50) eqn:B3; [|destruct (JS.ltb b 65) eqn:B4]]]);
    repeat match goal with
           | H : JS.ltb _ _ = true |- _ => apply ltb_lt in H
           | H : JS.ltb _ _ = false |- _ => apply ltb_ge in H
           end;
    cbn [AdStore.groupRank String.eqb Ascii.eqb Bool.eqb];
    (split; [intros Hlt | intros (t & [<-|[<-|[<-|[<-|[]]]]] & Hat & Htb)]);
    try (exfalso; lra); try (exfalso; cbn in Hlt; lia); try (cbn; lia).
    all: first [ exists 25; split; [simpl; tauto | split; lra]
               | exists 35; split; [simpl; tauto | split; lra]
               | exists 50; split; [simpl; tauto | split; lra]
               | exists 65; split; [simpl; tauto | split; lra] ].
Qed.

Lemma getAgeGroup_monotone_witness :
  24 <= 25 /\
  (AdStore.groupRank (AdStore.getAgeGroup 24) <= AdStore.groupRank (AdStore.getAgeGroup 25))%nat.
Proof.
  assert (H : 24 <= 25) by (intro H; discriminate H).
  split; [exact H|]. exact (proj1 (getAgeGroup_monotone 24 25 H)).
Defined.

(** ** Objects *)

Lemma Obj_get_set_same (o : Obj.t) (k : string) (v : Value) :
  Obj.get (Obj.set o k v) k = Some v.
Proof.
  induction o as [|[k' v'] rest IH]; simpl.
  - now rewrite String.eqb_refl.
  - destruct (String.eqb k' k) eqn:E; simpl; rewrite E; [reflexivity | exact IH].
Qed.

Lemma Obj_get_set_other (o : Obj.t) (k k' : string) (v : Value) :
  k <> k' -> Obj.get (Obj.set o k v) k' = Obj.get o k'.
Proof.
  intros Hne. induction o as [|[k0 v0] rest IH]; simpl.
  - apply String.eqb_neq in Hne. now rewrite Hne.
  - destruct (String.eqb k0 k) eqn:E; simpl.
    + apply String.eqb_eq in E. subst k0.
      apply String.eqb_neq in Hne. now rewrite Hne.
    + destruct (String.eqb k0 k'); [reflexivity | exact IH].
Qed.

Lemma Obj_get_absent (o : Obj.t) (k : string) :
  ~ In k (map fst o) -> Obj.get o k = None.
Proof.
  induction o as [|[k' v'] rest IH]; simpl; intros Hin; [reflexivity|].
  destruct (String.eqb k' k) eqn:E.
  - apply String.eqb_eq in E. exfalso. apply Hin. now left.
  - apply IH. intro H. apply Hin. now right.
Qed.

Lemma Obj_get_app_last (o : Obj.t) (k k' : string) (v' : Value) :
  Obj.get (o ++ [(k', v')])%list k =
  match Obj.get o k with
  | Some v => Some v
  | None => if String.eqb k' k then Some v' else None
  end.
Proof.
  induction o as [|[k0 v0] rest IH]; simpl; [reflexivity|].
  destruct (String.eqb k0 k); [reflexivity | exact IH].
Qed.

Lemma Obj_get_rev (o : Obj.t) (k : string) :
  NoDup (map fst o) -> Obj.get (rev o) k = Obj.get o k.
Proof.
  induction o as [|[k' v'] rest IH]; intros Hnd; [reflexivity|].
  simpl in Hnd. inversion Hnd as [|? ? Hnotin Hrest]; subst.
  simpl rev. rewrite Obj_get_app_last, (IH Hrest). simpl.
  destruct (String.eqb k' k) eqn:E.
  - apply String.eqb_eq in E. subst k'. now rewrite (Obj_get_absent rest k Hnotin).
  - now destruct (Obj.get rest k).
Qed.

Lemma Obj_get_spread_rev (o2 o1 : Obj.t) (k : string) :
  Obj.get (Obj.spread o1 o2) k =
  match Obj.get (rev o2) k with
  | Some v => Some v
  | None => Obj.get o1 k
  end.
Proof.
  unfold Obj.spread. revert o1.
  induction o2 as [|[k' v'] rest IH]; intros o1; [reflexivity|].
  simpl fold_left. rewrite IH. simpl rev. rewrite Obj_get_app_last.
  destruct (Obj.get (rev rest) k); [reflexivity|].
  destruct (String.eqb k' k) eqn:E.
  - apply String.eqb_eq in E. subst k'. apply Obj_get_set_same.
  - apply String.eqb_neq in E. now apply Obj_get_set_other.
Qed.

(** [{...o1, ...o2}] reads from [o2] first. *)
Lemma Obj_get_spread (o1 o2 : Obj.t) (k : string) :
  NoDup (map fst o2) ->
  Obj.get (Obj.spread o1 o2) k =
  match Obj.get o2 k with
  | Some v => Some v
  | None => Obj.get o1 k
  end.
Proof. intros Hnd. now rewrite Obj_get_spread_rev, Obj_get_rev. Qed.

(** ** The ad store *)

Section MapMatching.
Import AdStore.
Variable adId : string.
Variable f : GeneratedAd -> Date -> GeneratedAd.
Variable clock : Clock.

Lemma mapMatching_cons (k : nat) (ad : GeneratedAd) (rest : list GeneratedAd) :
  mapMatching adId f clock k (ad :: rest) =
  if String.eqb (id ad) adId
  then (f ad (clock k) :: fst (mapMatching adId f clock (S k) rest),
        snd (mapMatching adId f clock (S k) rest))
  else (ad :: fst (mapMatching adId f clock k rest),
        snd (mapMatching adId f clock k rest)).
Proof.
  simpl. destruct (String.eqb (id ad) adId).
  - now destruct (mapMatching adId f clock (S k) rest).
  - now destruct (mapMatching adId f clock k rest).
Qed.

Lemma mapMatching_absent (k : nat) (ads : list GeneratedAd) :
  Forall (fun ad => id ad <> adId) ads -> mapMatching adId f clock k ads = (ads, k).
Proof.
  induction 1 as [|ad rest Hne _ IH]; [reflexivity|].
  rewrite mapMatching_cons. apply String.eqb_neq in Hne. now rewrite Hne, IH.
Qed.

Lemma mapMatching_length (k : nat) (ads : list GeneratedAd) :
  List.length (fst (mapMatching adId f clock k ads)) = List.length ads.
Proof.
  revert k. induction ads as [|ad rest IH]; intros k; [reflexivity|].
  rewrite mapMatching_cons. destruct (String.eqb (id ad) adId); simpl; now rewrite IH.
Qed.

Lemma mapMatching_nth (k i : nat) (ads : list GeneratedAd) (ad : GeneratedAd) :
  nth_error ads i = Some ad ->
  exists ad', nth_error (fst (mapMatching adId f clock k ads)) i = Some ad'
    /\ (id ad <> adId -> ad' = ad)
    /\ (id ad = adId -> exists j, ad' = f ad (clock j)).
Proof.
  revert k i. induction ads as [|a rest IH]; intros k i Hi; [destruct i; discriminate|].
  rewrite mapMatching_cons. destruct i as [|i].
  - injection Hi as ->. destruct (String.eqb (id ad) adId) eqn:E; simpl.
    + apply String.eqb_eq in E. exists (f ad (clock k)).
      split; [reflexivity|]. split; [congruence | intros _; now exists k].
    + apply String.eqb_neq in E. exists ad.
      split; [reflexivity|]. split; [reflexivity | congruence].
  - simpl in Hi. destruct (String.eqb (id a) adId); simpl; now apply IH.
Qed.

Lemma mapMatching_In (k : nat) (ads : list GeneratedAd) (ad : GeneratedAd) :
  In ad ads ->
  (id ad <> adId -> In ad (fst (mapMatching adId f clock k ads))) /\
  (id ad = adId -> exists j, In (f ad (clock j)) (fst (mapMatching adId f clock k ads))).
Proof.
  intros Hin. apply In_nth_error in Hin. destruct Hin as (i & Hi).
  destruct (mapMatching_nth k i ads ad Hi) as (ad' & Hn & Hkeep & Hupd).
  apply nth_error_In in Hn. split.
  - intros Hne. now rewrite <- (Hkeep Hne).
  - intros He. destruct (Hupd He) as (j & ->). now exists j.
Qed.

End MapMatching.

Lemma updateAd_ads (adId : string) (updates : AdStore.Updates) (clock : AdStore.Clock)
    (st : AdStore.State) :
  AdStore.generatedAds (AdStore.updateAd adId updates clock st) =
  fst (AdStore.mapMatching adId (fun ad now => AdStore.merge ad updates now) clock 0
         (AdStore.generatedAds st)).
Proof.
  unfold AdStore.updateAd. now destruct (AdStore.mapMatching _ _ _ _ _).
Qed.

Lemma updateAd_current (adId : string) (updates : AdStore.Updates) (clock : AdStore.Clock)
    (st : AdStore.State) :
  exists j,
    AdStore.currentAd (AdStore.updateAd adId updates clock st) =
    match AdStore.currentAd st with
    | Some cur => if String.eqb (AdStore.id cur) adId
                  then Some (AdStore.merge cur updates (clock j)) else Some cur
    | None => None
    end.
Proof.
  unfold AdStore.updateAd. destruct (AdStore.mapMatching _ _ _ _ _) as [ads' k].
  now exists k.
Qed.

Lemma updateAd_rest (adId : string) (updates : AdStore.Updates) (clock : AdStore.Clock)
    (st : AdStore.State) :
  AdStore.campaigns (AdStore.updateAd adId updates clock st) = AdStore.campaigns st /\
  AdStore.currentCampaign (AdStore.updateAd adId updates clock st) = AdStore.currentCampaign st /\
  AdStore.templates (AdStore.updateAd adId updates clock st) = AdStore.templates st.
Proof.
  unfold AdStore.updateAd. now destruct (AdStore.mapMatching _ _ _ _ _).
Qed.

(** X10.  [updateAd] with an identifier that no stored ad and not the
    current ad carries changes nothing and raises nothing. *)
Theorem updateAd_unknown_id_is_noop
    (adId : string) (updates : AdStore.Updates) (clock : AdStore.Clock) (st : AdStore.State)
    (Hads : Forall (fun ad => AdStore.id ad <> adId) (AdStore.generatedAds st))
    (Hcur : forall cur, AdStore.currentAd st = Some cur -> AdStore.id cur <> adId) :
  AdStore.updateAd adId updates clock st = st.
Proof.
  unfold AdStore.updateAd. rewrite mapMatching_absent by exact Hads.
  destruct st as [t sel ads cur cs cc g p]. simpl in *.
  destruct cur as [cur|]; [|reflexivity].
  specialize (Hcur cur eq_refl). apply String.eqb_neq in Hcur. now rewrite Hcur.
Qed.

Lemma updateAd_unknown_id_is_noop_witness :
  Forall (fun ad => AdStore.id ad <> "zz") (AdStore.generatedAds StoreSample.store) /\
  AdStore.updateAd "zz" AdStore.noUpdates StoreSample.ticking StoreSample.store
    = StoreSample.store.
Proof.
  assert (Hads : Forall (fun ad => AdStore.id ad <> "zz")
                   (AdStore.generatedAds StoreSample.store)).
  { repeat constructor; discriminate. }
  split; [exact Hads|].
  apply (updateAd_unknown_id_is_noop "zz" AdStore.noUpdates StoreSample.ticking
           StoreSample.store Hads).
  intros cur Hcur. injection Hcur as <-. discriminate.
Defined.

(** X11.  [updateAd] keeps the number and the order of the stored ads and
    changes only those with the given identifier: each of them gets the
    fields present in the update, keeps its other fields and has
    [updatedAt] set to a reading of the clock.  Campaigns and templates are
    not touched. *)
Theorem updateAd_changes_only_matching
    (adId : string) (updates : AdStore.Updates) (clock : AdStore.Clock) (st : AdStore.State) :
  let st' := AdStore.updateAd adId updates clock st in
  List.length (AdStore.generatedAds st') = List.length (AdStore.generatedAds st)
  /\ (forall i ad, nth_error (AdStore.generatedAds st) i = Some ad ->
        exists ad', nth_error (AdStore.generatedAds st') i = Some ad'
          /\ (AdStore.id ad <> adId -> ad' = ad)
          /\ (AdStore.id ad = adId ->
                exists j, ad' = AdStore.merge ad updates (clock j)
                  /\ AdStore.updatedAt ad' = clock j
                  /\ (forall cnt, AdStore.uContent updates = Some cnt ->
                        AdStore.content ad' = cnt)
                  /\ (AdStore.uContent updates = None ->
                        AdStore.content ad' = AdStore.content ad)
                  /\ (AdStore.uId updates = None -> AdStore.id ad' = AdStore.id ad)
                  /\ (AdStore.uStatus updates = None ->
                        AdStore.status ad' = AdStore.status ad)))
  /\ AdStore.campaigns st' = AdStore.campaigns st
  /\ AdStore.templates st' = AdStore.templates st.
Proof.
  intros st'. subst st'.
  destruct (updateAd_rest adId updates clock st) as (Hc & _ & Ht).
  rewrite updateAd_ads.
  split; [apply mapMatching_length|]. split; [|split; assumption].
  intros i ad Hi.
  destruct (mapMatching_nth adId (fun a now => AdStore.merge a updates now) clock 0 i
              (AdStore.generatedAds st) ad Hi) as (ad' & Hn & Hkeep & Hupd).
  exists ad'. split; [exact Hn|]. split; [exact Hkeep|].
  intros He. destruct (Hupd He) as (j & ->). exists j.
  split; [reflexivity|]. split; [reflexivity|].
  unfold AdStore.merge; simpl.
  repeat split; intros; match goal with H : _ = _ |- _ => now rewrite H end.
Qed.

Lemma filter_keeps_all {A : Type} (p : A -> bool) (l : list A) :
  Forall (fun x => p x = true) l -> filter p l = l.
Proof. induction 1 as [|x l Hx _ IH]; simpl; [reflexivity | now rewrite Hx, IH]. Qed.

Lemma filter_twice {A : Type} (p : A -> bool) (l : list A) :
  filter p (filter p l) = filter p l.
Proof.
  apply filter_keeps_all. apply Forall_forall. intros x Hx.
  now apply filter_In in Hx.
Qed.

Lemma find_absent (adId : string) (ads : list AdStore.GeneratedAd) :
  Forall (fun ad => AdStore.id ad <> adId) ads ->
  find (fun ad => String.eqb (AdStore.id ad) adId) ads = None.
Proof.
  induction 1 as [|ad rest Hne _ IH]; simpl; [reflexivity|].
  apply String.eqb_neq in Hne. now rewrite Hne.
Qed.

(** X12.  After [deleteAd] no stored ad has the identifier, the other ads
    are kept in their order, and the current ad is cleared exactly when it
    had the identifier.  Deleting again, or deleting an identifier that is
    not stored, changes nothing more; a later [duplicateAd] of the
    identifier fails with "Ad not found".  The campaigns are not touched,
    so their ad lists may still name the deleted ad. *)
Theorem deleteAd_removes_the_ad (adId : string) (st : AdStore.State) :
  let st' := AdStore.deleteAd adId st in
  Forall (fun ad => AdStore.id ad <> adId) (AdStore.generatedAds st')
  /\ (forall ad, In ad (AdStore.generatedAds st') <->
                 In ad (AdStore.generatedAds st) /\ AdStore.id ad <> adId)
  /\ AdStore.generatedAds st' =
       filter (fun ad => negb (String.eqb (AdStore.id ad) adId)) (AdStore.generatedAds st)
  /\ (forall cur, AdStore.currentAd st = Some cur ->
        (AdStore.id cur = adId -> AdStore.currentAd st' = None) /\
        (AdStore.id cur <> adId -> AdStore.currentAd st' = Some cur))
  /\ AdStore.deleteAd adId st' = st'
  /\ (Forall (fun ad => AdStore.id ad <> adId) (AdStore.generatedAds st) ->
        AdStore.generatedAds st' = AdStore.generatedAds st)
  /\ (forall newId clock, AdStore.duplicateAd adId newId clock st' = inl "Ad not found")
  /\ AdStore.campaigns st' = AdStore.campaigns st.
Proof.
  intros st'.
  assert (Hin : forall ad, In ad (AdStore.generatedAds st') <->
                 In ad (AdStore.generatedAds st) /\ AdStore.id ad <> adId).
  { intros ad. subst st'. cbn [AdStore.deleteAd AdStore.generatedAds].
    rewrite filter_In, negb_true_iff, String.eqb_neq. reflexivity. }
  assert (Hall : Forall (fun ad => AdStore.id ad <> adId) (AdStore.generatedAds st')).
  { apply Forall_forall. intros ad Had. now apply Hin in Had. }
  split; [exact Hall|]. split; [exact Hin|]. split; [reflexivity|].
  split; [|split; [|split; [|split; [|reflexivity]]]].
  - intros cur Hcur. subst st'. cbn [AdStore.deleteAd AdStore.currentAd]. rewrite Hcur.
    split; intros Hid.
    + apply String.eqb_eq in Hid. now rewrite Hid.
    + apply String.eqb_neq in Hid. now rewrite Hid.
  - subst st'. unfold AdStore.deleteAd. cbn [AdStore.generatedAds AdStore.currentAd
      AdStore.templates AdStore.selectedTemplate AdStore.campaigns AdStore.currentCampaign
      AdStore.isGenerating AdStore.generationProgress].
    rewrite filter_twice. f_equal.
    destruct (AdStore.currentAd st) as [cur|]; [|reflexivity].
    destruct (String.eqb (AdStore.id cur) adId) eqn:E; [reflexivity | now rewrite E].
  - intros Habsent. subst st'. cbn [AdStore.deleteAd AdStore.generatedAds].
    apply filter_keeps_all. eapply Forall_impl; [|exact Habsent].
    intros ad Hne. cbv beta in Hne |- *. apply String.eqb_neq in Hne. now rewrite Hne.
  - intros newId clock. unfold AdStore.duplicateAd. now rewrite find_absent.
Qed.

(** X13.  The store keeps its current ad listed: when the current ad has
    the identifier of a stored ad, it still has after [saveAd], [updateAd]
    (also when the update changes the identifier), [deleteAd],
    [updateAdPerformance] and a successful [duplicateAd]. *)
Theorem current_ad_stays_listed (st : AdStore.State) (Hinv : AdStore.currentListed st) :
  (forall ad, AdStore.currentListed (AdStore.saveAd ad st))
  /\ (forall adId updates clock,
        AdStore.currentListed (AdStore.updateAd adId updates clock st))
  /\ (forall adId, AdStore.currentListed (AdStore.deleteAd adId st))
  /\ (forall adId perf clock,
        AdStore.currentListed (AdStore.updateAdPerformance adId perf clock st))
  /\ (forall adId newId clock copy st',
        AdStore.duplicateAd adId newId clock st = inr (copy, st') ->
        AdStore.currentListed st').
Proof.
  unfold AdStore.currentListed in *.
  split; [|split; [|split; [|split]]].
  - intros ad. cbn [AdStore.saveAd AdStore.currentAd AdStore.generatedAds].
    destruct (AdStore.currentAd st) as [cur|]; [|exact I].
    destruct Hinv as (b & Hb & Hid). exists b. split; [|exact Hid].
    apply in_or_app. now left.
  - intros adId updates clock. rewrite updateAd_ads.
    destruct (updateAd_current adId updates clock st) as (j & ->).
    destruct (AdStore.currentAd st) as [cur|]; [|exact I].
    destruct Hinv as (b & Hb & Hid).
    destruct (mapMatching_In adId (fun a now => AdStore.merge a updates now) clock 0
                (AdStore.generatedAds st) b Hb) as (Hkeep & Hupd).
    destruct (String.eqb (AdStore.id cur) adId) eqn:E.
    + apply String.eqb_eq in E. destruct (Hupd (eq_trans Hid E)) as (j' & Hj').
      eexists. split; [exact Hj'|]. unfold AdStore.merge; simpl.
      destruct (AdStore.uId updates); simpl; [reflexivity | exact Hid].
    + apply String.eqb_neq in E. exists b. split; [|exact Hid].
      apply Hkeep. congruence.
  - intros adId. cbn [AdStore.deleteAd AdStore.currentAd AdStore.generatedAds].
    destruct (AdStore.currentAd st) as [cur|]; [|exact I].
    destruct Hinv as (b & Hb & Hid).
    destruct (String.eqb (AdStore.id cur) adId) eqn:E; [exact I|].
    exists b. split; [|exact Hid].
    apply filter_In. split; [exact Hb|]. now rewrite Hid, E.
  - intros adId perf clock.
    cbn [AdStore.updateAdPerformance AdStore.currentAd AdStore.generatedAds].
    destruct (AdStore.currentAd st) as [cur|]; [|exact I].
    destruct Hinv as (b & Hb & Hid).
    match goal with
    | |- context [AdStore.mapMatching adId ?f clock 0%nat _] =>
        destruct (mapMatching_In adId f clock 0 (AdStore.generatedAds st) b Hb)
          as (Hkeep & Hupd)
    end.
    destruct (String.eqb (AdStore.id b) adId) eqn:E.
    + apply String.eqb_eq in E. destruct (Hupd E) as (j' & Hj').
      eexists. split; [exact Hj'|]. exact Hid.
    + apply String.eqb_neq in E. exists b. split; [now apply Hkeep | exact Hid].
  - intros adId newId clock copy st' Hdup. unfold AdStore.duplicateAd in Hdup.
    destruct (find _ _) as [orig|]; [|discriminate].
    injection Hdup as _ <-. cbn [AdStore.currentAd AdStore.generatedAds].
    destruct (AdStore.currentAd st) as [cur|]; [|exact I].
    destruct Hinv as (b & Hb & Hid). exists b. split; [|exact Hid].
    apply in_or_app. now left.
Qed.

Lemma current_ad_stays_listed_witness :
  AdStore.currentListed StoreSample.store /\
  AdStore.currentListed (AdStore.deleteAd "b" StoreSample.store).
Proof.
  assert (Hinv : AdStore.currentListed StoreSample.store).
  { exists (StoreSample.ad "a"). split; [now left | reflexivity]. }
  split; [exact Hinv|].
  destruct (current_ad_stays_listed StoreSample.store Hinv) as (_ & _ & Hdel & _).
  apply Hdel.
Defined.

Section MapCampaign.
Import AdStore.
Variable campaignId : string.
Variable f : Campaign -> Date -> Campaign.
Variable clock : Clock.

Lemma mapCampaign_nth (k i : nat) (cs : list Campaign) (c : Campaign) :
  nth_error cs i = Some c ->
  exists c', nth_error (mapCampaign campaignId f clock k cs) i = Some c'
    /\ (cId c <> campaignId -> c' = c)
    /\ (cId c = campaignId -> exists j, c' = f c (clock j)).
Proof.
  revert k i. induction cs as [|a rest IH]; intros k i Hi; [destruct i; discriminate|].
  simpl. destruct i as [|i].
  - injection Hi as ->. destruct (String.eqb (cId c) campaignId) eqn:E; simpl.
    + apply String.eqb_eq in E. exists (f c (clock k)).
      split; [reflexivity|]. split; [congruence | intros _; now exists k].
    + apply String.eqb_neq in E. exists c.
      split; [reflexivity|]. split; [reflexivity | congruence].
  - simpl in Hi. destruct (String.eqb (cId a) campaignId); simpl; now apply IH.
Qed.

Lemma mapCampaign_length (k : nat) (cs : list Campaign) :
  List.length (mapCampaign campaignId f clock k cs) = List.length cs.
Proof.
  revert k. induction cs as [|a rest IH]; intros k; [reflexivity|].
  simpl. destruct (String.eqb (cId a) campaignId); simpl; now rewrite IH.
Qed.

End MapCampaign.

Lemma filter_app_absent (adId : string) (ads : list string) :
  filter (fun i => negb (String.eqb i adId)) (ads ++ [adId]) =
  filter (fun i => negb (String.eqb i adId)) ads.
Proof.
  rewrite filter_app. simpl. rewrite String.eqb_refl. simpl. apply app_nil_r.
Qed.

(** X14.  [addAdToCampaign] appends the identifier to the ad list of every
    campaign with the given identifier, whether or not it is already
    there and whether or not such an ad is stored.  A following
    [removeAdFromCampaign] leaves that list as the original list without
    any occurrence of the identifier: the original list itself when the
    identifier was not in it.  Both actions set [updatedAt] to a reading of
    the clock and keep every other field of the campaign: identifier, name,
    description, objective, budget, start and end date, status, target
    audience, performance and creation date.  Other campaigns and the rest
    of the store stay as they are. *)
Theorem campaign_add_then_remove
    (campaignId adId : string) (clock1 clock2 : AdStore.Clock) (st : AdStore.State) :
  let st1 := AdStore.addAdToCampaign campaignId adId clock1 st in
  let st2 := AdStore.removeAdFromCampaign campaignId adId clock2 st1 in
  List.length (AdStore.campaigns st2) = List.length (AdStore.campaigns st)
  /\ (forall i c, nth_error (AdStore.campaigns st) i = Some c ->
        exists c1 c2,
          nth_error (AdStore.campaigns st1) i = Some c1
          /\ nth_error (AdStore.campaigns st2) i = Some c2
          /\ (AdStore.cId c <> campaignId -> c1 = c /\ c2 = c)
          /\ (AdStore.cId c = campaignId ->
                AdStore.cAds c1 = (AdStore.cAds c ++ [adId])%list
                /\ AdStore.cAds c2 =
                     filter (fun i => negb (String.eqb i adId)) (AdStore.cAds c)
                /\ ~ In adId (AdStore.cAds c2)
                /\ (~ In adId (AdStore.cAds c) -> AdStore.cAds c2 = AdStore.cAds c)
                /\ AdStore.cId c2 = AdStore.cId c /\ AdStore.cName c2 = AdStore.cName c
                /\ AdStore.cStatus c2 = AdStore.cStatus c
                /\ AdStore.cBudget c2 = AdStore.cBudget c
                /\ (exists j1, c1 =
                      AdStore.mkCampaign (AdStore.cId c) (AdStore.cName c)
                        (AdStore.cDescription c) (AdStore.cObjective c) (AdStore.cBudget c)
                        (AdStore.cStartDate c) (AdStore.cEndDate c) (AdStore.cStatus c)
                        (AdStore.cTargetAudience c) (AdStore.cAds c ++ [adId])%list
                        (AdStore.cPerformance c) (AdStore.cCreatedAt c) (clock1 j1))
                /\ (exists j2, c2 =
                      AdStore.mkCampaign (AdStore.cId c) (AdStore.cName c)
                        (AdStore.cDescription c) (AdStore.cObjective c) (AdStore.cBudget c)
                        (AdStore.cStartDate c) (AdStore.cEndDate c) (AdStore.cStatus c)
                        (AdStore.cTargetAudience c)
                        (filter (fun i => negb (String.eqb i adId)) (AdStore.cAds c))
                        (AdStore.cPerformance c) (AdStore.cCreatedAt c) (clock2 j2))))
  /\ AdStore.generatedAds st2 = AdStore.generatedAds st
  /\ AdStore.currentCampaign st2 = AdStore.currentCampaign st
  /\ AdStore.currentAd st2 = AdStore.currentAd st
  /\ AdStore.templates st2 = AdStore.templates st
  /\ AdStore.selectedTemplate st2 = AdStore.selectedTemplate st
  /\ AdStore.isGenerating st2 = AdStore.isGenerating st
  /\ AdStore.generationProgress st2 = AdStore.generationProgress st.
Proof.
  intros st1 st2.
  split; [|split; [|repeat split; reflexivity]].
  - subst st2 st1. cbn [AdStore.removeAdFromCampaign AdStore.addAdToCampaign AdStore.campaigns].
    now rewrite !mapCampaign_length.
  - intros i c Hi.
    destruct (mapCampaign_nth campaignId
                (fun c now => AdStore.withAds c (AdStore.cAds c ++ [adId]) now) clock1 0 i
                (AdStore.campaigns st) c Hi) as (c1 & H1 & Hkeep1 & Hupd1).
    destruct (mapCampaign_nth campaignId
                (fun c now => AdStore.withAds c
                   (filter (fun i => negb (String.eqb i adId)) (AdStore.cAds c)) now)
                clock2 0 i (AdStore.campaigns st1) c1 H1) as (c2 & H2 & Hkeep2 & Hupd2).
    exists c1, c2. split; [exact H1|]. split; [exact H2|]. split.
    + intros Hne. specialize (Hkeep1 Hne). subst c1. split; [reflexivity|]. now apply Hkeep2.
    + intros He. destruct (Hupd1 He) as (j1 & ->).
      destruct (Hupd2 He) as (j2 & ->).
      cbn [AdStore.withAds AdStore.cAds AdStore.cId AdStore.cName AdStore.cStatus
           AdStore.cBudget AdStore.cDescription AdStore.cObjective AdStore.cStartDate
           AdStore.cEndDate AdStore.cTargetAudience AdStore.cPerformance AdStore.cCreatedAt].
      rewrite filter_app_absent.
      split; [reflexivity|]. split; [reflexivity|]. split.
      * intros Hin. apply filter_In in Hin. destruct Hin as (_ & Hb).
        now rewrite String.eqb_refl in Hb.
      * split; [|repeat split; [now exists j1 | now exists j2]].
        intros Hnot. apply filter_keeps_all. apply Forall_forall. intros x Hx.
        apply negb_true_iff. apply String.eqb_neq. intros ->. contradiction.
Qed.

(** X15.  [duplicateAd] fails with "Ad not found" when no stored ad has the
    identifier.  Otherwise it appends one copy of the first such ad, with
    the identifier drawn for it, status draft and both dates read from the
    clock, and all other fields of the original: template, user, campaign,
    content, targeting, generation, predictions and performance.  The
    stored ads, the current ad and the rest of the store are left as they
    were.  The drawn identifier is not checked against the stored ones. *)
Theorem duplicateAd_copies_first_match
    (adId newId : string) (clock : AdStore.Clock) (st : AdStore.State) :
  (Forall (fun ad => AdStore.id ad <> adId) (AdStore.generatedAds st) ->
     AdStore.duplicateAd adId newId clock st = inl "Ad not found")
  /\ (forall ad, In ad (AdStore.generatedAds st) -> AdStore.id ad = adId ->
        exists before orig rest copy st',
          AdStore.generatedAds st = (before ++ orig :: rest)%list
          /\ Forall (fun a => AdStore.id a <> adId) before
          /\ AdStore.id orig = adId
          /\ AdStore.duplicateAd adId newId clock st = inr (copy, st')
          /\ AdStore.generatedAds st' = (AdStore.generatedAds st ++ [copy])%list
          /\ AdStore.currentAd st' = AdStore.currentAd st
          /\ AdStore.id copy = newId /\ AdStore.status copy = AdStore.Draft
          /\ AdStore.createdAt copy = clock 0%nat /\ AdStore.updatedAt copy = clock 1%nat
          /\ AdStore.content copy = AdStore.content orig
          /\ AdStore.templateId copy = AdStore.templateId orig
          /\ AdStore.userId copy = AdStore.userId orig
          /\ AdStore.campaignId copy = AdStore.campaignId orig
          /\ AdStore.performance copy = AdStore.performance orig
          /\ AdStore.targeting copy = AdStore.targeting orig
          /\ AdStore.generation copy = AdStore.generation orig
          /\ AdStore.predictions copy = AdStore.predictions orig
          /\ copy = AdStore.mkGeneratedAd newId (AdStore.templateId orig)
                      (AdStore.userId orig) (AdStore.campaignId orig) (AdStore.content orig)
                      (AdStore.targeting orig) (AdStore.generation orig)
                      (AdStore.predictions orig) (AdStore.performance orig)
                      (clock 0%nat) (clock 1%nat) AdStore.Draft
          /\ AdStore.campaigns st' = AdStore.campaigns st
          /\ AdStore.currentCampaign st' = AdStore.currentCampaign st
          /\ AdStore.templates st' = AdStore.templates st
          /\ AdStore.selectedTemplate st' = AdStore.selectedTemplate st
          /\ AdStore.isGenerating st' = AdStore.isGenerating st
          /\ AdStore.generationProgress st' = AdStore.generationProgress st).
Proof.
  split.
  - intros Habsent. unfold AdStore.duplicateAd. now rewrite find_absent.
  - intros ad Hin Hid. unfold AdStore.duplicateAd.
    assert (Hsplit : exists before orig rest,
              AdStore.generatedAds st = (before ++ orig :: rest)%list
              /\ Forall (fun a => AdStore.id a <> adId) before
              /\ AdStore.id orig = adId
              /\ find (fun a => String.eqb (AdStore.id a) adId) (AdStore.generatedAds st)
                 = Some orig).
    { induction (AdStore.generatedAds st) as [|a l IH]; [destruct Hin|].
      destruct (String.eqb (AdStore.id a) adId) eqn:E.
      - exists [], a, l. simpl. rewrite E. apply String.eqb_eq in E. repeat split; auto.
      - destruct Hin as [-> | Hin].
        + apply String.eqb_neq in E. contradiction.
        + destruct (IH Hin) as (before & orig & rest & Hl & Hb & Ho & Hf).
          exists (a :: before), orig, rest. simpl. rewrite E.
          apply String.eqb_neq in E.
          split; [now rewrite Hl|]. split; [now constructor|]. split; assumption. }
    destruct Hsplit as (before & orig & rest & Hl & Hb & Ho & Hf).
    rewrite Hf. exists before, orig, rest. eexists _, _.
    split; [exact Hl|]. split; [exact Hb|]. split; [exact Ho|].
    split; [reflexivity|]. repeat split.
Qed.

(** ** The handlers of the customization screen *)

Lemma updateAd_content_nth (adId : string) (cnt : AdStore.Content) (clock : AdStore.Clock)
    (st : AdStore.State) (i : nat) (ad : AdStore.GeneratedAd) :
  nth_error (AdStore.generatedAds st) i = Some ad -> AdStore.id ad = adId ->
  exists ad', nth_error (AdStore.generatedAds
                           (AdStore.updateAd adId (Customizer.contentUpdate cnt) clock st)) i
              = Some ad'
    /\ AdStore.content ad' = cnt /\ AdStore.id ad' = adId
    /\ AdStore.status ad' = AdStore.status ad /\ AdStore.createdAt ad' = AdStore.createdAt ad.
Proof.
  intros Hi Hid. rewrite updateAd_ads.
  destruct (mapMatching_nth adId
              (fun a now => AdStore.merge a (Customizer.contentUpdate cnt) now) clock 0 i
              (AdStore.generatedAds st) ad Hi) as (ad' & Hn & _ & Hupd).
  destruct (Hupd Hid) as (j & ->).
  eexists. split; [exact Hn|]. repeat split. exact Hid.
Qed.

(** X16.  The screen keeps the ad it was opened with and builds every
    store update from that copy, so two successive changes of different
    settings do not add up in the store: after the second change the
    stored ad holds the second setting, but the first setting is back at
    the value of the copy, as are the texts.  The screen's own
    [customizations] hold both changes. *)
Theorem customization_changes_do_not_accumulate
    (k1 k2 : string) (v1 v2 : Value) (clock1 clock2 : AdStore.Clock)
    (scr : Customizer.Screen) (st : AdStore.State) (ad : AdStore.GeneratedAd)
    (Hsel : Customizer.selectedAd scr = Some ad) (Hkeys : k1 <> k2) :
  let r1 := Customizer.handleCustomizationChange k1 v1 clock1 scr st in
  let r2 := Customizer.handleCustomizationChange k2 v2 clock2 (fst r1) (snd r1) in
  let shown := AdStore.visualElements (AdStore.content ad) in
  Obj.get (Customizer.customizations (fst r2)) k1 = Some v1
  /\ Obj.get (Customizer.customizations (fst r2)) k2 = Some v2
  /\ Customizer.selectedAd (fst r2) = Some ad
  /\ (forall i a, nth_error (AdStore.generatedAds st) i = Some a ->
        AdStore.id a = AdStore.id ad ->
        exists a1 a2,
          nth_error (AdStore.generatedAds (snd r1)) i = Some a1
          /\ nth_error (AdStore.generatedAds (snd r2)) i = Some a2
          /\ Obj.get (AdStore.visualElements (AdStore.content a1)) k1 = Some v1
          /\ Obj.get (AdStore.visualElements (AdStore.content a2)) k2 = Some v2
          /\ Obj.get (AdStore.visualElements (AdStore.content a2)) k1 = Obj.get shown k1
          /\ AdStore.content a2 =
               Customizer.withVisualElements (AdStore.content ad) (Obj.set shown k2 v2)).
Proof.
  intros r1 r2 shown.
  assert (H1 : r1 = (Customizer.mkScreen (Obj.set (Customizer.customizations scr) k1 v1)
                        (Some ad),
                     AdStore.updateAd (AdStore.id ad)
                       (Customizer.contentUpdate
                          (Customizer.withVisualElements (AdStore.content ad)
                             (Obj.set shown k1 v1))) clock1 st)).
  { subst r1. unfold Customizer.handleCustomizationChange. now rewrite Hsel. }
  assert (H2 : r2 = (Customizer.mkScreen
                       (Obj.set (Obj.set (Customizer.customizations scr) k1 v1) k2 v2)
                       (Some ad),
                     AdStore.updateAd (AdStore.id ad)
                       (Customizer.contentUpdate
                          (Customizer.withVisualElements (AdStore.content ad)
                             (Obj.set shown k2 v2))) clock2 (snd r1))).
  { subst r2. rewrite H1. reflexivity. }
  rewrite H2. cbn [fst snd Customizer.customizations Customizer.selectedAd].
  split; [|split; [|split; [reflexivity|]]].
  - rewrite Obj_get_set_other by congruence. apply Obj_get_set_same.
  - apply Obj_get_set_same.
  - intros i a Hi Hid. rewrite H1. cbn [snd].
    destruct (updateAd_content_nth (AdStore.id ad)
                (Customizer.withVisualElements (AdStore.content ad) (Obj.set shown k1 v1))
                clock1 st i a Hi Hid) as (a1 & Hn1 & Hc1 & Hid1 & _).
    destruct (updateAd_content_nth (AdStore.id ad)
                (Customizer.withVisualElements (AdStore.content ad) (Obj.set shown k2 v2))
                clock2 _ i a1 Hn1 Hid1) as (a2 & Hn2 & Hc2 & _).
    exists a1, a2. split; [exact Hn1|]. split; [exact Hn2|].
    rewrite Hc1, Hc2. cbn [Customizer.withVisualElements AdStore.visualElements].
    split; [apply Obj_get_set_same|]. split; [apply Obj_get_set_same|].
    split; [|reflexivity]. apply Obj_get_set_other. congruence.
Qed.

Lemma customization_changes_do_not_accumulate_witness :
  Customizer.selectedAd StoreSample.screen = Some (StoreSample.ad "a") /\
  "padding" <> "fontSize" /\
  Obj.get (Customizer.customizations
             (fst (Customizer.handleCustomizationChange "fontSize" (VNum 18)
                     StoreSample.ticking
                     (fst (Customizer.handleCustomizationChange "padding" (VNum 30)
                             StoreSample.ticking StoreSample.screen StoreSample.store))
                     (snd (Customizer.handleCustomizationChange "padding" (VNum 30)
                             StoreSample.ticking StoreSample.screen StoreSample.store)))))
          "padding" = Some (VNum 30).
Proof.
  assert (Hsel : Customizer.selectedAd StoreSample.screen = Some (StoreSample.ad "a"))
    by reflexivity.
  assert (Hk : "padding" <> "fontSize") by discriminate.
  split; [exact Hsel|]. split; [exact Hk|].
  exact (proj1 (customization_changes_do_not_accumulate "padding" "fontSize" (VNum 30)
                  (VNum 18) StoreSample.ticking StoreSample.ticking StoreSample.screen
                  StoreSample.store (StoreSample.ad "a") Hsel Hk)).
Defined.

(** The first change is gone from the store after the second. *)
Example padding_change_is_lost :
  let r1 := Customizer.handleCustomizationChange "padding" (VNum 30) StoreSample.ticking
              StoreSample.screen StoreSample.store in
  let r2 := Customizer.handleCustomizationChange "fontSize" (VNum 18) StoreSample.ticking
              (fst r1) (snd r1) in
  map (fun a => Obj.get (AdStore.visualElements (AdStore.content a)) "padding")
      (AdStore.generatedAds (snd r1)) = [Some (VNum 30); None]
  /\ map (fun a => Obj.get (AdStore.visualElements (AdStore.content a)) "padding")
       (AdStore.generatedAds (snd r2)) = [None; None].
Proof. split; reflexivity. Qed.

(** X17.  [saveCustomizations] writes to every stored ad with the
    identifier of the screen's ad the visual elements of that copy overlaid
    with all current customizations: each key reads the customization when
    there is one and the copy's value otherwise; the texts are those of the
    copy.  Without an ad the store is left as it is. *)
Theorem saveCustomizations_writes_all
    (clock : AdStore.Clock) (scr : Customizer.Screen) (st : AdStore.State)
    (ad : AdStore.GeneratedAd)
    (Hsel : Customizer.selectedAd scr = Some ad)
    (Hobj : NoDup (map fst (Customizer.customizations scr))) :
  let st' := Customizer.saveCustomizations clock scr st in
  (forall i a, nth_error (AdStore.generatedAds st) i = Some a ->
     AdStore.id a = AdStore.id ad ->
     exists a', nth_error (AdStore.generatedAds st') i = Some a'
       /\ (forall k, Obj.get (AdStore.visualElements (AdStore.content a')) k =
                     match Obj.get (Customizer.customizations scr) k with
                     | Some v => Some v
                     | None => Obj.get (AdStore.visualElements (AdStore.content ad)) k
                     end)
       /\ AdStore.headline (AdStore.content a') = AdStore.headline (AdStore.content ad)
       /\ AdStore.description (AdStore.content a') = AdStore.description (AdStore.content ad)
       /\ AdStore.callToAction (AdStore.content a')
          = AdStore.callToAction (AdStore.content ad))
  /\ (forall i a, nth_error (AdStore.generatedAds st) i = Some a ->
        AdStore.id a <> AdStore.id ad -> nth_error (AdStore.generatedAds st') i = Some a)
  /\ (forall other, Customizer.selectedAd other = None ->
        Customizer.saveCustomizations clock other st = st).
Proof.
  intros st'.
  assert (Hst : st' = AdStore.updateAd (AdStore.id ad)
             (Customizer.contentUpdate
                (Customizer.withVisualElements (AdStore.content ad)
                   (Obj.spread (AdStore.visualElements (AdStore.content ad))
                      (Customizer.customizations scr)))) clock st).
  { subst st'. unfold Customizer.saveCustomizations. now rewrite Hsel. }
  split; [|split].
  - intros i a Hi Hid. rewrite Hst.
    destruct (updateAd_content_nth (AdStore.id ad)
                (Customizer.withVisualElements (AdStore.content ad)
                   (Obj.spread (AdStore.visualElements (AdStore.content ad))
                      (Customizer.customizations scr)))
                clock st i a Hi Hid)
      as (a' & Hn & Hc & _).
    exists a'. split; [exact Hn|]. rewrite Hc.
    cbn [Customizer.withVisualElements AdStore.visualElements AdStore.headline
         AdStore.description AdStore.callToAction].
    split; [|repeat split]. intros k. now apply Obj_get_spread.
  - intros i a Hi Hne. rewrite Hst, updateAd_ads.
    destruct (mapMatching_nth (AdStore.id ad)
                (fun x now => AdStore.merge x
                   (Customizer.contentUpdate
                      (Customizer.withVisualElements (AdStore.content ad)
                         (Obj.spread (AdStore.visualElements (AdStore.content ad))
                            (Customizer.customizations scr)))) now) clock 0 i
                (AdStore.generatedAds st) a Hi) as (a' & Hn & Hkeep & _).
    rewrite Hn. now rewrite (Hkeep Hne).
  - intros other Hnone. unfold Customizer.saveCustomizations. now rewrite Hnone.
Qed.

Lemma saveCustomizations_writes_all_witness :
  Customizer.selectedAd
    (Customizer.mkScreen [("padding", VNum 30)] (Some (StoreSample.ad "a")))
    = Some (StoreSample.ad "a") /\
  NoDup (map fst [("padding", VNum 30)]) /\
  exists a', nth_error (AdStore.generatedAds
                (Customizer.saveCustomizations StoreSample.ticking
                   (Customizer.mkScreen [("padding", VNum 30)] (Some (StoreSample.ad "a")))
                   StoreSample.store)) 0 = Some a'
    /\ Obj.get (AdStore.visualElements (AdStore.content a')) "padding" = Some (VNum 30).
Proof.
  assert (Hnd : NoDup (map fst [("padding", VNum 30)])).
  { constructor; [intros [] | constructor]. }
  split; [reflexivity|]. split; [exact Hnd|].
  destruct (saveCustomizations_writes_all StoreSample.ticking
              (Customizer.mkScreen [("padding", VNum 30)] (Some (StoreSample.ad "a")))
              StoreSample.store (StoreSample.ad "a") eq_refl Hnd) as (Hall & _).
  destruct (Hall 0%nat (StoreSample.ad "a") eq_refl eq_refl) as (a' & Hn & Hk & _).
  exists a'. split; [exact Hn|]. now rewrite (Hk "padding").
Defined.

(** ** Score colours *)

Lemma geb_ge (a b : Q) : Ethics.geb a b = true <-> b <= a.
Proof. unfold Ethics.geb. apply Qle_bool_iff. Qed.

Lemma geb_lt (a b : Q) : Ethics.geb a b = false <-> a < b.
Proof.
  unfold Ethics.geb. split; intro H.
  - apply Qnot_le_lt. intro Hle. apply Qle_bool_iff in Hle. congruence.
  - destruct (Qle_bool b a) eqn:E; [|reflexivity].
    apply Qle_bool_iff in E. exfalso. apply (Qlt_not_le _ _ H E).
Qed.

(** X18.  Both score colours are monotone in the score: a higher score
    never gets a worse colour.  The bias scale is the more lenient one:
    at every score its colour is at least as good as the compliance
    colour, so a score that is green for compliance is green for bias, and
    a score that is red for bias is red for compliance. *)
Theorem score_colours_monotone (a b : Q) (Hab : a <= b) :
  (colourRank (Ethics.getComplianceColor a) <= colourRank (Ethics.getComplianceColor b))%nat
  /\ (colourRank (Ethics.getBiasScoreColor a) <= colourRank (Ethics.getBiasScoreColor b))%nat
  /\ (colourRank (Ethics.getComplianceColor a) <= colourRank (Ethics.getBiasScoreColor a))%nat
  /\ (Ethics.getComplianceColor a = "text-green-600" ->
        Ethics.getBiasScoreColor b = "bg-green-500")
  /\ (Ethics.getBiasScoreColor b = "bg-red-500" ->
        Ethics.getComplianceColor a = "text-red-600").
Proof.
  unfold Ethics.getComplianceColor, Ethics.getBiasScoreColor.
  destruct (Ethics.geb a 90) eqn:A1, (Ethics.geb a 70) eqn:A2,
           (Ethics.geb a 80) eqn:A3, (Ethics.geb a 60) eqn:A4,
           (Ethics.geb b 90) eqn:B1, (Ethics.geb b 70) eqn:B2,
           (Ethics.geb b 80) eqn:B3, (Ethics.geb b 60) eqn:B4;
    try (cbn; repeat split; try lia; intros; try reflexivity; discriminate);
    repeat match goal with
           | H : Ethics.geb _ _ = true |- _ => apply geb_ge in H
           | H : Ethics.geb _ _ = false |- _ => apply geb_lt in H
           end; exfalso; lra.
Qed.

Lemma score_colours_monotone_witness :
  85 <= 92 /\
  (colourRank (Ethics.getComplianceColor 85) <= colourRank (Ethics.getComplianceColor 92))%nat.
Proof.
  assert (H : 85 <= 92) by (intro H; discriminate H).
  split; [exact H|]. exact (proj1 (score_colours_monotone 85 92 H)).
Defined.

(** ** The AI store *)

Lemma startsWith_spec (s t : string) :
  AIStore.startsWith s t = true <-> exists post, s = (t ++ post)%string.
Proof.
  revert s. induction t as [|b t IH]; intros s; simpl.
  - split; [intros _; now exists s | reflexivity].
  - destruct s as [|a s].
    + split; [discriminate | intros (post & H); discriminate].
    + rewrite andb_true_iff, Ascii.eqb_eq, IH. split.
      * intros (-> & post & ->). now exists post.
      * intros (post & H). injection H as -> ->. split; [reflexivity | now exists post].
Qed.

Lemma includes_spec (s t : string) : AIStore.includes s t = true <-> JS.embeds s t.
Proof.
  unfold JS.embeds. induction s as [|a s IH]; simpl.
  - rewrite orb_false_r, startsWith_spec. split.
    + intros (post & H). now exists EmptyString, post.
    + intros (pre & post & H). destruct pre; [now exists post | discriminate].
  - rewrite orb_true_iff, IH.
    rewrite (startsWith_spec (String a s) t). split.
    + intros [(post & H) | (pre & post & H)].
      * now exists EmptyString, post.
      * exists (String a pre), post. simpl. now rewrite H.
    + intros (pre & post & H). destruct pre as [|a' pre].
      * left. now exists post.
      * right. simpl in H. injection H as -> ->. now exists pre, post.
Qed.

Lemma toLowerCase_app (a b : string) :
  AIStore.toLowerCase (a ++ b) = (AIStore.toLowerCase a ++ AIStore.toLowerCase b)%string.
Proof. induction a as [|c a IH]; simpl; [reflexivity | now rewrite IH]. Qed.

Lemma toLowerCase_split (s a b : string) :
  AIStore.toLowerCase s = (a ++ b)%string ->
  exists a' b', s = (a' ++ b')%string /\ AIStore.toLowerCase a' = a
                /\ AIStore.toLowerCase b' = b.
Proof.
  revert s. induction a as [|c a IH]; intros s H.
  - exists EmptyString, s. auto.
  - destruct s as [|c' s]; [discriminate|].
    simpl in H. injection H as Hc Hs.
    destruct (IH s Hs) as (a' & b' & -> & Ha & Hb).
    exists (String c' a'), b'. simpl. rewrite Ha, Hc. auto.
Qed.

(** A lower-cased text contains a word exactly when the text contains a
    spelling of it in some letter case. *)
Lemma embeds_lower (s t : string) :
  JS.embeds (AIStore.toLowerCase s) t <->
  exists w, AIStore.toLowerCase w = t /\ JS.embeds s w.
Proof.
  unfold JS.embeds. split.
  - intros (pre & post & H).
    destruct (toLowerCase_split s pre (t ++ post) H) as (pre' & rest & -> & _ & Hrest).
    destruct (toLowerCase_split rest t post Hrest) as (w & post' & -> & Hw & _).
    exists w. split; [exact Hw | now exists pre', post'].
  - intros (w & Hw & pre & post & ->).
    exists (AIStore.toLowerCase pre), (AIStore.toLowerCase post).
    now rewrite !toLowerCase_app, Hw.
Qed.

(** X19.  [detectBias] returns one detection, demographic and of medium
    severity, exactly when the text contains "young" or "millennial" in
    some letter case, and none otherwise.  The store's detections only
    grow: the ones returned are added after those already there, so
    testing the same flagged text again adds the detection again. *)
Theorem detectBias_flags_age_words
    (content : string) (clock : AdStore.Clock) (st : AIStore.State) :
  let biases := fst (AIStore.detectBias content clock st) in
  let st' := snd (AIStore.detectBias content clock st) in
  (biases <> [] <->
     exists w, (AIStore.toLowerCase w = "young" \/ AIStore.toLowerCase w = "millennial")
               /\ JS.embeds content w)
  /\ (List.length biases <= 1)%nat
  /\ Forall (fun b => AIStore.type b = AIStore.Demographic /\
                      AIStore.severity b = AIStore.Medium /\
                      AIStore.detectedAt b = clock 0%nat) biases
  /\ AIStore.biasDetections st' = (AIStore.biasDetections st ++ biases)%list
  /\ AIStore.biasDetections (snd (AIStore.detectBias content clock st'))
       = (AIStore.biasDetections st ++ biases ++ biases)%list
  /\ AIStore.usage st' = AIStore.usage st.
Proof.
  intros biases st'. subst biases st'. unfold AIStore.detectBias.
  cbn [fst snd AIStore.biasDetections AIStore.usage].
  split.
  - destruct (AIStore.includes (AIStore.toLowerCase content) "young") eqn:Ey;
      [|destruct (AIStore.includes (AIStore.toLowerCase content) "millennial") eqn:Em];
      cbn [orb].
    + split; [intros _ | discriminate].
      apply includes_spec, embeds_lower in Ey. destruct Ey as (w & Hw & He).
      exists w. auto.
    + split; [intros _ | discriminate].
      apply includes_spec, embeds_lower in Em. destruct Em as (w & Hw & He).
      exists w. auto.
    + split; [congruence|].
      intros (w & [Hw | Hw] & He); exfalso.
      * assert (Hy : AIStore.includes (AIStore.toLowerCase content) "young" = true).
        { apply includes_spec, embeds_lower. now exists w. }
        congruence.
      * assert (Hm : AIStore.includes (AIStore.toLowerCase content) "millennial" = true).
        { apply includes_spec, embeds_lower. now exists w. }
        congruence.
  - destruct (_ || _); cbn [List.length]; repeat split; try lia;
      repeat constructor; now rewrite <- app_assoc.
Qed.

Example detectBias_upper_case :
  List.length (fst (AIStore.detectBias "Perfect for YOUNG professionals"
                      StoreSample.ticking AIStore.initial)) = 1%nat.
Proof. reflexivity. Qed.

Lemma recordRequests_keeps (plus : Q -> Q -> Q) (requests : list (Q * Q)) (st : AIStore.State) :
  let st' := AIStore.recordRequests plus requests st in
  AIStore.dailyLimit (AIStore.usage st') = AIStore.dailyLimit (AIStore.usage st)
  /\ AIStore.biasDetections st' = AIStore.biasDetections st
  /\ AIStore.biasMonitoringEnabled st' = AIStore.biasMonitoringEnabled st
  /\ AIStore.totalCost (AIStore.usage st')
       = fold_left plus (map snd requests) (AIStore.totalCost (AIStore.usage st)).
Proof.
  unfold AIStore.recordRequests. revert st.
  induction requests as [|[t c] rest IH]; intros st; [repeat split|].
  cbn [fold_left fst snd map]. specialize (IH (AIStore.updateUsage plus t c st)).
  cbv zeta in IH. destruct IH as (H1 & H2 & H3 & H4).
  cbv zeta. rewrite H1, H2, H3, H4. repeat split.
Qed.

Lemma recordRequests_integers (plus : Q -> Q -> Q) (Hexact : AIStore.exactOnIntegers plus)
    (requests : list (Z * Q)) (st : AIStore.State) (T k : Z) :
  AIStore.totalTokens (AIStore.usage st) == inject_Z T ->
  AIStore.requestsToday (AIStore.usage st) == inject_Z k ->
  (0 <= T)%Z -> (0 <= k)%Z ->
  Forall (fun r => (0 <= fst r)%Z) requests ->
  (T + AIStore.sumZ (map fst requests) <= 2 ^ 53)%Z ->
  (k + Z.of_nat (List.length requests) <= 2 ^ 53)%Z ->
  let u' := AIStore.usage (AIStore.recordRequests plus (AIStore.withTokens requests) st) in
  AIStore.totalTokens u' == inject_Z (T + AIStore.sumZ (map fst requests))
  /\ AIStore.requestsToday u' == inject_Z (k + Z.of_nat (List.length requests)).
Proof.
  unfold AIStore.recordRequests, AIStore.withTokens. revert st T k.
  induction requests as [|[t c] rest IH]; intros st T k HT Hk HT0 Hk0 Htok HTs Hks.
  - cbn [map fold_left AIStore.sumZ fold_right List.length Z.of_nat]. cbv zeta.
    rewrite !Z.add_0_r. split; assumption.
  - apply Forall_cons_iff in Htok. destruct Htok as [Ht Hrest]. cbn [fst] in Ht.
    assert (Hsum : (0 <= AIStore.sumZ (map fst rest))%Z).
    { clear -Hrest. induction Hrest as [|r l Hr _ IHl]; [simpl; lia|].
      cbn [map AIStore.sumZ fold_right]. fold (AIStore.sumZ (map fst l)). lia. }
    cbn [map fst snd AIStore.sumZ fold_right List.length] in HTs, Hks |- *.
    fold (AIStore.sumZ (map fst rest)) in HTs |- *.
    rewrite Nat2Z.inj_succ in Hks |- *.
    cbn [fold_left fst snd].
    specialize (IH (AIStore.updateUsage plus (inject_Z t) c st) (T + t)%Z (k + 1)%Z).
    cbv zeta in IH |- *.
    replace (T + (t + AIStore.sumZ (map fst rest)))%Z
      with (T + t + AIStore.sumZ (map fst rest))%Z by lia.
    replace (k + Z.succ (Z.of_nat (List.length rest)))%Z
      with (k + 1 + Z.of_nat (List.length rest))%Z by lia.
    apply IH; try lia; try assumption.
    + cbn [AIStore.updateUsage AIStore.usage AIStore.totalTokens].
      apply Hexact; [split; [exact HT | lia] | split; [reflexivity | lia] | lia].
    + cbn [AIStore.updateUsage AIStore.usage AIStore.requestsToday].
      apply Hexact; [split; [exact Hk | lia] | split; [reflexivity | lia] | lia].
Qed.

Lemma Qplus_exactOnIntegers : AIStore.exactOnIntegers Qplus.
Proof.
  intros x y a b [Hx _] [Hy _] _. rewrite Hx, Hy, inject_Z_plus. reflexivity.
Qed.

(** X20.  [updateUsage] adds the tokens and the cost of a request to the
    totals and 1 to the daily count, each by a sum of doubles; the cost
    total is the rounded sum taken in request order.  As long as the token
    counts are integers that are not negative and the token total and the
    daily count stay within 2^53, where sums of integers are exact, after
    a run of requests the token total is the old total plus the tokens of
    the requests and the daily count is the old count plus their number.
    No action changes the daily limit or holds a request back at it, and
    the bias detections are left alone.  [resetDailyUsage] puts the daily
    count back to 0 and keeps the totals and the limit. *)
Theorem usage_counters_add_up
    (plus : Q -> Q -> Q) (requests : list (Z * Q)) (st : AIStore.State) (T k : Z)
    (Hexact : AIStore.exactOnIntegers plus)
    (HT : AIStore.totalTokens (AIStore.usage st) == inject_Z T)
    (Hk : AIStore.requestsToday (AIStore.usage st) == inject_Z k)
    (Hpos : (0 <= T)%Z /\ (0 <= k)%Z)
    (Htok : Forall (fun r => (0 <= fst r)%Z) requests)
    (Hsafe : (T + AIStore.sumZ (map fst requests) <= 2 ^ 53)%Z
             /\ (k + Z.of_nat (List.length requests) <= 2 ^ 53)%Z) :
  let u := AIStore.usage st in
  let st' := AIStore.recordRequests plus (AIStore.withTokens requests) st in
  let u' := AIStore.usage st' in
  let r := AIStore.usage (AIStore.resetDailyUsage st') in
  AIStore.totalTokens u' == inject_Z (T + AIStore.sumZ (map fst requests))
  /\ AIStore.requestsToday u' == inject_Z (k + Z.of_nat (List.length requests))
  /\ AIStore.totalCost u' = fold_left plus (map snd requests) (AIStore.totalCost u)
  /\ AIStore.dailyLimit u' = AIStore.dailyLimit u
  /\ AIStore.biasDetections st' = AIStore.biasDetections st
  /\ AIStore.requestsToday r = 0
  /\ AIStore.totalTokens r = AIStore.totalTokens u'
  /\ AIStore.totalCost r = AIStore.totalCost u'
  /\ AIStore.dailyLimit r = AIStore.dailyLimit u.
Proof.
  intros u st' u' r. destruct Hpos as [HT0 Hk0]. destruct Hsafe as [HTs Hks].
  destruct (recordRequests_integers plus Hexact requests st T k HT Hk HT0 Hk0 Htok HTs Hks)
    as (H1 & H2).
  destruct (recordRequests_keeps plus (AIStore.withTokens requests) st) as (H3 & H4 & _ & H5).
  split; [exact H1|]. split; [exact H2|].
  split.
  { subst u' st' u. rewrite H5. unfold AIStore.withTokens. rewrite map_map.
    cbn [snd]. reflexivity. }
  split; [exact H3|]. split; [exact H4|].
  subst r. cbn [AIStore.resetDailyUsage AIStore.usage AIStore.requestsToday
    AIStore.totalTokens AIStore.totalCost AIStore.dailyLimit].
  repeat split. exact H3.
Qed.

Lemma usage_counters_add_up_witness :
  let st' := AIStore.recordRequests Qplus
               (AIStore.withTokens [(150%Z, 1 # 50); (220%Z, 1 # 50)]) AIStore.initial in
  AIStore.totalTokens (AIStore.usage st') == 370
  /\ AIStore.requestsToday (AIStore.usage st') == 2.
Proof.
  assert (Hpos : (0 <= 0)%Z /\ (0 <= 0)%Z) by (split; lia).
  assert (Htok : Forall (fun r : Z * Q => (0 <= fst r)%Z) [(150%Z, 1 # 50); (220%Z, 1 # 50)])
    by (repeat constructor; simpl; lia).
  assert (Hsafe : (0 + AIStore.sumZ (map fst [(150%Z, 1 # 50); (220%Z, 1 # 50)]) <= 2 ^ 53)%Z
                  /\ (0 + Z.of_nat (List.length [(150%Z, 1 # 50); (220%Z, 1 # 50)])
                       <= 2 ^ 53)%Z)
    by (split; vm_compute; discriminate).
  assert (HT : AIStore.totalTokens (AIStore.usage AIStore.initial) == inject_Z 0)
    by reflexivity.
  assert (Hk : AIStore.requestsToday (AIStore.usage AIStore.initial) == inject_Z 0)
    by reflexivity.
  destruct (usage_counters_add_up Qplus [(150%Z, 1 # 50); (220%Z, 1 # 50)] AIStore.initial
              0%Z 0%Z Qplus_exactOnIntegers HT Hk Hpos Htok Hsafe) as (H1 & H2 & _).
  split; [exact H1 | exact H2].
Defined.
